(** * HW3b: Student t-distribution CDF by trapezoidal integration

    A shallow embedding of [HW3b.py] and the properties of it that the
    specification states.

    Python's [float] is IEEE 754 binary64: it is modelled by Rocq's primitive
    [float], whose operations are specified bit for bit by [SpecFloat].
    Python's float operations that can raise ([/], [**], [math.exp],
    [math.sqrt], [int] to [float]) return a [result].  The two functions of
    the platform C library that CPython calls on ordinary arguments ([pow]
    and [exp]) are a parameter, the class [Libm].

    Integer literals that meet a float in the source ([0], [1], [2], [1000])
    are written as the floats Python converts them to.  The argument
    [degrees_of_freedom], which the source documents as an [int], is modelled
    both as a float ([calculate_probability]) and as an [int]
    ([calculate_probability_int], where [degrees_of_freedom / 2] divides two
    [int]s). *)

From Stdlib Require Import ZArith List Lia Bool Floats.
Import ListNotations.

(** ** Outcomes of a Python computation *)

Inductive exn : Type :=
| ZeroDivisionError
| OverflowError
| ValueError.

(** [Ret v]: the value [v]; [Raise e]: the exception [e] propagates;
    [NotFloat]: the value left the floats ([x ** y] is a complex number for
    [x < 0] and a fractional [y]) and is not followed any further. *)
Inductive result (A : Type) : Type :=
| Ret (a : A)
| Raise (e : exn)
| NotFloat.

Arguments Ret {A} a.
Arguments Raise {A} e.
Arguments NotFloat {A}.

Definition bind {A B : Type} (m : result A) (k : A -> result B) : result B :=
  match m with
  | Ret a => k a
  | Raise e => Raise e
  | NotFloat => NotFloat
  end.

Notation "x <- m ;; k" := (bind m (fun x => k))
  (at level 61, m at next level, right associativity).

(** [try: body except Exception: handler]. *)
Definition try_except {A : Type} (body : result A) (handler : exn -> result A)
  : result A :=
  match body with
  | Ret a => Ret a
  | Raise e => handler e
  | NotFloat => NotFloat
  end.

(** ** Python's float operations *)

Module PyFloat.

Local Open Scope float_scope.

(** [x / y]: [ZeroDivisionError] when the divisor is zero, IEEE otherwise. *)
Definition truediv (x y : float) : result float :=
  if y =? 0 then Raise ZeroDivisionError else Ret (x / y).

(** [float(n)] for an [int]: the nearest float, ties to even;
    [OverflowError] when [n] is too large. *)
Definition of_int (n : Z) : result float :=
  let r := SF2Prim (binary_normalize prec emax n 0 false) in
  if is_infinity r then Raise OverflowError else Ret r.

(** [n / 2] for an [int] [n] (CPython's [long_true_divide]): the quotient
    rounded to the nearest float, ties to even; [OverflowError] when it is
    too large. *)
Definition int_div_two (n : Z) : result float :=
  let r := SF2Prim (binary_normalize prec emax n (-1) false) in
  if is_infinity r then Raise OverflowError else Ret r.

(** The value of a finite float is an integer. *)
Definition is_integer (x : float) : bool :=
  match Prim2SF x with
  | S754_zero _ => true
  | S754_finite _ m e =>
      if (0 <=? e)%Z then true else (Zpos m mod 2 ^ (- e) =? 0)%Z
  | _ => false
  end.

(** CPython's [DOUBLE_IS_ODD_INTEGER]: [fmod(fabs(x), 2.0) == 1.0]. *)
Definition is_odd_integer (x : float) : bool :=
  match Prim2SF x with
  | S754_finite _ m e =>
      if (0 <? e)%Z then false
      else ((Zpos m mod 2 ^ (- e) =? 0) && Z.odd (Zpos m / 2 ^ (- e)))%Z
  | _ => false
  end.

(** The platform's [pow] and [exp], which CPython calls once the special
    cases are sorted out: [libm_pow x y] for finite [x > 0], [x <> 1] and
    finite [y <> 0]; [libm_exp x] for finite [x <> 0].  A power of a positive
    base is never negative. *)
Class Libm : Type := {
  libm_pow : float -> float -> float;
  libm_exp : float -> float;
  libm_pow_nonneg :
    forall x y, (0 <? x) = true -> (libm_pow x y <? 0) = false
}.

(** [x ** y], after CPython's [float_pow]. *)
Definition pow `{Libm} (iv iw : float) : result float :=
  if iw =? 0 then Ret 1
  else if is_nan iv then Ret iv
  else if is_nan iw then Ret (if iv =? 1 then 1 else iw)
  else if is_infinity iw then
    let iv := abs iv in
    if iv =? 1 then Ret 1
    else if Bool.eqb (0 <? iw) (1 <? iv) then Ret (abs iw)
    else Ret 0
  else if is_infinity iv then
    let iw_is_odd := is_odd_integer iw in
    if 0 <? iw then Ret (if iw_is_odd then iv else abs iv)
    else Ret (if iw_is_odd then (if iv <? 0 then neg_zero else zero) else 0)
  else if iv =? 0 then
    let iw_is_odd := is_odd_integer iw in
    if iw <? 0 then Raise ZeroDivisionError
    else Ret (if iw_is_odd then iv else 0)
  else if (iv <? 0) && negb (is_integer iw) then NotFloat
  else
    let negate_result := (iv <? 0) && is_odd_integer iw in
    let iv := if iv <? 0 then - iv else iv in
    if iv =? 1 then Ret (if negate_result then -1 else 1)
    else
      let ix := libm_pow iv iw in
      let ix := if negate_result then - ix else ix in
      if is_infinity ix then Raise OverflowError else Ret ix.

(** C's [exp]: the special values of Annex F, the platform otherwise. *)
Definition c_exp `{Libm} (x : float) : float :=
  if is_nan x then x
  else if x =? infinity then infinity
  else if x =? neg_infinity then 0
  else if x =? 0 then 1
  else libm_exp x.

(** [math.exp(x)]. *)
Definition exp `{Libm} (x : float) : result float :=
  let r := c_exp x in
  if is_nan r && negb (is_nan x) then Raise ValueError
  else if is_infinity r && is_finite x then Raise OverflowError
  else Ret r.

(** [math.sqrt(x)]: [ValueError] for a negative argument. *)
Definition sqrt (x : float) : result float :=
  if x <? 0 then Raise ValueError else Ret (PrimFloat.sqrt x).

(** [math.pi]. *)
Definition pi : float := 0x1.921fb54442d18p+1.

End PyFloat.

(** ** Python's [range] and [for] *)

(** [range(lo, hi)]. *)
Definition py_range (lo hi : Z) : list Z :=
  map (fun k => (lo + Z.of_nat k)%Z) (seq 0 (Z.to_nat (hi - lo))).

(** [for i in xs: acc = body(i, acc)], stopping at the first exception. *)
Fixpoint for_each (xs : list Z) (acc : float)
    (body : Z -> float -> result float) : result float :=
  match xs with
  | [] => Ret acc
  | i :: xs' => acc' <- body i acc ;; for_each xs' acc' body
  end.

(** ** The program *)

Section Program.

Context {L : PyFloat.Libm}.

Local Open Scope float_scope.

(** [integrand(t)] of [gamma_function(alpha)]:
    [math.exp(-t) * t ** (alpha - 1)]. *)
Definition gamma_function_integrand (alpha t : float) : result float :=
  e <- PyFloat.exp (- t) ;;
  p <- PyFloat.pow t (alpha - 1) ;;
  Ret (e * p).

(** [integrate(a, b, N)] of [gamma_function(alpha)]. *)
Definition gamma_function_integrate (alpha a b : float) (N : Z)
  : result float :=
  n <- PyFloat.of_int N ;;
  h <- PyFloat.truediv (b - a) n ;;
  fa <- gamma_function_integrand alpha a ;;
  fb <- gamma_function_integrand alpha b ;;
  let sum_area := 0.5 * (fa + fb) in
  sum_area <- for_each (py_range 1 N) sum_area (fun i sum_area =>
      i' <- PyFloat.of_int i ;;
      v <- gamma_function_integrand alpha (a + i' * h) ;;
      Ret (sum_area + v)) ;;
  Ret (h * sum_area).

Definition gamma_function (alpha : float) : result float :=
  gamma_function_integrate alpha 0 infinity 1000.

Definition calculate_Km (m : float) : result float :=
  numerator <- gamma_function (0.5 * m + 0.5) ;;
  root <- PyFloat.sqrt (m * PyFloat.pi) ;;
  g <- gamma_function (0.5 * m) ;;
  let denominator := root * g in
  if denominator =? 0 then Ret infinity
  else PyFloat.truediv numerator denominator.

(** [integrand(u, m)]: [(1 + u ** 2 / m) ** ((m + 1) / 2)]. *)
Definition integrand (u m : float) : result float :=
  u2 <- PyFloat.pow u 2 ;;
  q <- PyFloat.truediv u2 m ;;
  e <- PyFloat.truediv (m + 1) 2 ;;
  PyFloat.pow (1 + q) e.

(** [integrate(a, b, N)] of [calculate_probability], which closes over [m]. *)
Definition calculate_probability_integrate (m a b : float) (N : Z)
  : result float :=
  n <- PyFloat.of_int N ;;
  h <- PyFloat.truediv (b - a) n ;;
  fa <- integrand a m ;;
  fb <- integrand b m ;;
  let sum_area := 0.5 * (fa + fb) in
  sum_area <- for_each (py_range 1 N) sum_area (fun i sum_area =>
      i' <- PyFloat.of_int i ;;
      v <- integrand (a + i' * h) m ;;
      Ret (sum_area + v)) ;;
  Ret (h * sum_area).

(** [calculate_probability] from the sentinel test on: [Km] is the value of
    [calculate_Km(m)], [integral] the call
    [integrate(-float('inf'), z_value, 1000)].  The handler's [print] is
    console output and is not modelled. *)
Definition calculate_probability_from (Km : float)
    (integral : unit -> result float) : result float :=
  if Km =? infinity then Ret nan
  else
    try_except
      (result <- integral tt ;;
       let probability := Km * result in
       Ret probability)
      (fun _ => Ret nan).

(** [calculate_probability] on a float [degrees_of_freedom]. *)
Definition calculate_probability (degrees_of_freedom z_value : float)
  : result float :=
  m <- PyFloat.truediv degrees_of_freedom 2 ;;
  Km <- calculate_Km m ;;
  calculate_probability_from Km
    (fun _ => calculate_probability_integrate m neg_infinity z_value 1000).

(** [calculate_probability] on an [int] [degrees_of_freedom], as its
    docstring has it and as [main] calls it: [degrees_of_freedom / 2] is
    then the division of two [int]s. *)
Definition calculate_probability_int (degrees_of_freedom : Z)
    (z_value : float) : result float :=
  m <- PyFloat.int_div_two degrees_of_freedom ;;
  Km <- calculate_Km m ;;
  calculate_probability_from Km
    (fun _ => calculate_probability_integrate m neg_infinity z_value 1000).

End Program.

(** ** The driver and the console *)

(** A line on the console, by the statement that writes it and the values
    it formats; the text they are formatted to is not modelled. *)
Inductive line : Type :=
| Prompt (n : Z)                          (* input(f"Enter z value {n}: ") *)
| IntegralError (e : exn)                 (* print(f"Error occurred: {e}") *)
| DegreesOfFreedom (df : float)           (* print(f"\nDegrees of Freedom: {df}") *)
| ErrorFor (z : float)                    (* print(f"Error occurred for z={z}") *)
| ProbabilityFor (z probability : float). (* print(f"Probability for z={z}: {probability}") *)

(** A computation that writes lines and then has an outcome. *)
Definition io (A : Type) : Type := (list line * result A)%type.

Definition io_ret {A : Type} (a : A) : io A := ([], Ret a).

Definition io_bind {A B : Type} (m : io A) (k : A -> io B) : io B :=
  match m with
  | (out, Ret a) => let (out', r) := k a in (out ++ out', r)
  | (out, Raise e) => (out, Raise e)
  | (out, NotFloat) => (out, NotFloat)
  end.

Notation "x <-- m ;; k" := (io_bind m (fun x => k))
  (at level 61, m at next level, right associativity).

Notation "m >> k" := (io_bind m (fun _ => k))
  (at level 61, right associativity).

Definition print (l : line) : io unit := ([l], Ret tt).

(** A computation that writes nothing. *)
Definition lift {A : Type} (r : result A) : io A := ([], r).

(** [try: body except Exception as e: handler]. *)
Definition io_try_except {A : Type} (body : io A) (handler : exn -> io A)
  : io A :=
  match body with
  | (out, Raise e) => let (out', r) := handler e in (out ++ out', r)
  | other => other
  end.

(** [for x in xs: s = body(x, s)], stopping at the first exception. *)
Fixpoint io_for {A S : Type} (xs : list A) (s : S) (body : A -> S -> io S)
  : io S :=
  match xs with
  | [] => io_ret s
  | x :: xs' => s' <-- body x s ;; io_for xs' s' body
  end.

Section Driver.

Context {L : PyFloat.Libm}.

Local Open Scope float_scope.

(** [calculate_probability] with the line its handler prints. *)
Definition calculate_probability_io (degrees_of_freedom z_value : float)
  : io float :=
  m <-- lift (PyFloat.truediv degrees_of_freedom 2) ;;
  Km <-- lift (calculate_Km m) ;;
  if Km =? infinity then io_ret nan
  else
    io_try_except
      (result <-- lift (calculate_probability_integrate m neg_infinity z_value 1000) ;;
       let probability := Km * result in
       io_ret probability)
      (fun e =>
         print (IntegralError e) >>
         io_ret nan).

(** [main()]; [input i] is the outcome of the [i]-th [float(input(...))],
    counted from 0: the float read, or the [ValueError] of a text that is
    not a number.  The degrees of freedom [7], [11], [15] are the floats
    that [degrees_of_freedom / 2] converts them to. *)
Definition main (input : Z -> result float) : io unit :=
  z_values <-- io_for (py_range 0 3) [] (fun i z_values =>
      print (Prompt (i + 1)) >>
      z_value <-- lift (input i) ;;
      io_ret (z_values ++ [z_value])) ;;
  let degrees_of_freedom_values := [7; 11; 15] in
  io_for degrees_of_freedom_values tt (fun df _ =>
      print (DegreesOfFreedom df) >>
      io_for z_values tt (fun z _ =>
          probability <-- calculate_probability_io df z ;;
          if is_nan probability then print (ErrorFor z)
          else print (ProbabilityFor z probability))).

End Driver.

(** ** The specification's side *)

Section Specification.

Context {L : PyFloat.Libm}.

Local Open Scope float_scope.

(** The kernel of the t-density as the specification words it,
    [(1 + u^2/m)^(-(m+1)/2)]: [integrand] with the exponent negated. *)
Definition t_density_kernel (u m : float) : result float :=
  u2 <- PyFloat.pow u 2 ;;
  q <- PyFloat.truediv u2 m ;;
  e <- PyFloat.truediv (m + 1) 2 ;;
  PyFloat.pow (1 + q) (- e).

End Specification.

Local Open Scope float_scope.

(** The composite trapezoidal rule as the specification words it,
    [h * (0.5 * f(a) + 0.5 * f(b) + (v_1 + ... + v_k))], evaluated in
    floating point: each end point is halved, and the sum of the interior
    samples is added to the two halves. *)
Definition trapezoidal_rule (h fa fb : float) (interior : list float) : float :=
  h * (0.5 * fa + 0.5 * fb + fold_left add interior 0).

(** What the source's [integrate] computes from the samples,
    [h * ((0.5 * (fa + fb) + v_1) + ... + v_k)]: [sum_area] starts from the
    half of the sum of the end points and the loop adds the interior samples
    to it one by one. *)
Definition integrate_value (h fa fb : float) (interior : list float) : float :=
  h * fold_left add interior (0.5 * (fa + fb)).

(** [integrand(a + i * h)], the sample the loop takes at index [i]. *)
Definition sample (f : float -> result float) (a h : float) (i : Z)
  : result float :=
  i' <- PyFloat.of_int i ;; f (a + i' * h).

(** The body that the two nested [integrate] functions share, over the
    integrand [f] each of them closes over. *)
Definition integrate_with (f : float -> result float) (a b : float) (N : Z)
  : result float :=
  n <- PyFloat.of_int N ;;
  h <- PyFloat.truediv (b - a) n ;;
  fa <- f a ;;
  fb <- f b ;;
  let sum_area := 0.5 * (fa + fb) in
  sum_area <- for_each (py_range 1 N) sum_area (fun i sum_area =>
      i' <- PyFloat.of_int i ;;
      v <- f (a + i' * h) ;;
      Ret (sum_area + v)) ;;
  Ret (h * sum_area).

(** The float a computation returned ([nan] when it returned none). *)
Definition returned (r : result float) : float :=
  match r with
  | Ret v => v
  | _ => nan
  end.

(** The outcome is a float or an exception. *)
Definition is_float_outcome {A : Type} (r : result A) : Prop :=
  match r with
  | NotFloat => False
  | _ => True
  end.

(** The outcome is a float, or an exception that [P] allows. *)
Definition raises_only {A : Type} (P : exn -> Prop) (r : result A) : Prop :=
  match r with
  | Ret _ => True
  | Raise e => P e
  | NotFloat => False
  end.

(** The line the handler of [calculate_probability] leaves on the console:
    one when the CDF integral raised, none otherwise. *)
Definition handler_lines {L : PyFloat.Libm} (m z : float) : list line :=
  match calculate_probability_integrate m neg_infinity z 1000 with
  | Raise e => [IntegralError e]
  | _ => []
  end.

(** ** A small platform library

    Enough of [pow] and [exp] to run the program on ordinary arguments.
    The theorems below hold for every [Libm]; this one instantiates them. *)

Module RefLibm.

(** [1/k + x/(k+2) + x^2/(k+4) + ...], [n] terms. *)
Fixpoint atanh_terms (n : nat) (k x : float) : float :=
  match n with
  | O => 0
  | S n' => 1 / k + x * atanh_terms n' (k + 2) x
  end.

Definition ln2 : float := 0x1.62e42fefa39efp-1.

(** [ln x] for a finite [x > 0]: with [x = m * 2 ^ e] and [1/2 <= m < 1],
    [ln m = 2 * atanh ((m - 1) / (m + 1))]. *)
Definition log (x : float) : float :=
  let (m, e) := frshiftexp x in
  let t := (m - 1) / (m + 1) in
  2 * t * atanh_terms 40 1 (t * t) + (of_uint63 e - 2101) * ln2.

(** [1 + x/k * (1 + x/(k+1) * (1 + ...))], [n] factors. *)
Fixpoint exp_terms (n : nat) (k x : float) : float :=
  match n with
  | O => 1
  | S n' => 1 + x / k * exp_terms n' (k + 1) x
  end.

Fixpoint square_n (n : nat) (y : float) : float :=
  match n with
  | O => y
  | S n' => square_n n' (y * y)
  end.

(** [e ^ x = (e ^ (x / 1024)) ^ 1024]; past the range of the floats the
    result is [+inf] or [0]. *)
Definition exp (x : float) : float :=
  if 710 <? x then infinity
  else if x <? -746 then 0
  else square_n 10 (exp_terms 30 1 (x / 1024)).

Definition pow (x y : float) : float := exp (y * log x).

End RefLibm.

(** ** Shapes of a float's bit-level form *)

Definition SF1 : spec_float := S754_finite false 4503599627370496 (-52).
Definition SFhalf : spec_float := S754_finite false 4503599627370496 (-53).
Definition SF2 : spec_float := S754_finite false 4503599627370496 (-51).

(** [x] is [+inf] or a positive finite float of exponent at least [k]:
    for a float in canonical form and [k > -1074], [2 ^ (k + 52) <= x]. *)
Definition sf_ge_exp (k : Z) (x : spec_float) : Prop :=
  match x with
  | S754_infinity false => True
  | S754_finite false _ e => (k <= e)%Z
  | _ => False
  end.

(** [x] is not negative: a zero, a positive float, [+inf] or [nan]. *)
Definition sf_not_neg (x : spec_float) : Prop :=
  SFltb x (S754_zero false) = false.

(** A negative finite float. *)
Definition neg_finite (w : float) : Prop :=
  exists m e, Prim2SF w = S754_finite true m e.

(** A positive float, [+inf] included. *)
Definition positive_float (w : float) : Prop := sf_ge_exp (-1074) (Prim2SF w).

(** [x] is [+inf] or [nan]. *)
Definition inf_or_nan (x : float) : Prop := x = infinity \/ x = nan.

(** The sample point [a + i * h] is [t]: on an interval with an infinite
    end it is the same for every [i]. *)
Definition sample_is (a h t : float) (i : Z) : bool :=
  match PyFloat.of_int i with
  | Ret i' => Leibniz.eqb (a + i' * h) t
  | _ => false
  end.

(** * Properties *)

(** ** Rounding to binary64, from the definitions of [SpecFloat] *)

Section Rounding.

Local Open Scope Z_scope.

Lemma digits2_pos_size p : digits2_pos p = Pos.size p.
Proof. induction p; simpl; congruence. Qed.

Lemma Zdigits_log2 p : Zpos (digits2_pos p) = Z.log2 (Zpos p) + 1.
Proof.
  rewrite digits2_pos_size. destruct p; simpl; try reflexivity; lia.
Qed.

Lemma iter_pos_nat {A : Type} (f : A -> A) p x :
  iter_pos f p x = Nat.iter (Pos.to_nat p) f x.
Proof.
  revert x. induction p as [p IH|p IH|]; intros x; cbn [iter_pos].
  - rewrite !IH, <- Nat.iter_succ_r, <- Nat.iter_add. f_equal. lia.
  - rewrite !IH, <- Nat.iter_add. f_equal. lia.
  - reflexivity.
Qed.

Lemma shr_1_m r : 0 <= shr_m r -> shr_m (shr_1 r) = Z.div2 (shr_m r).
Proof. destruct r as [[|[p|p|]|p] r s]; simpl; intros; try reflexivity; lia. Qed.

Lemma shr_1_r r : 0 <= shr_m r -> shr_r (shr_1 r) = Z.odd (shr_m r).
Proof. destruct r as [[|[p|p|]|p] r s]; simpl; intros; try reflexivity; lia. Qed.

Lemma shr_m_iter n r :
  0 <= shr_m r -> shr_m (Nat.iter n shr_1 r) = Z.shiftr (shr_m r) (Z.of_nat n).
Proof.
  intros H. induction n as [|n IH].
  - simpl. now rewrite Z.shiftr_0_r.
  - rewrite Nat.iter_succ. rewrite shr_1_m.
    + rewrite IH. rewrite Z.div2_spec. rewrite Z.shiftr_shiftr by lia. f_equal. lia.
    + rewrite IH. now apply Z.shiftr_nonneg.
Qed.

Lemma shr_r_iter n r :
  0 <= shr_m r ->
  shr_r (Nat.iter (S n) shr_1 r) = Z.odd (Z.shiftr (shr_m r) (Z.of_nat n)).
Proof.
  intros H. rewrite Nat.iter_succ. rewrite shr_1_r; rewrite shr_m_iter by assumption.
  - reflexivity.
  - now apply Z.shiftr_nonneg.
Qed.

Lemma shr_spec r e n :
  0 <= shr_m r ->
  shr_m (fst (shr r e n)) = Z.shiftr (shr_m r) (Z.max 0 n) /\
  snd (shr r e n) = e + Z.max 0 n.
Proof.
  intros H. destruct n as [|p|p]; simpl.
  - now rewrite Z.add_0_r.
  - rewrite iter_pos_nat, shr_m_iter by assumption.
    rewrite positive_nat_Z. split; reflexivity.
  - now rewrite Z.add_0_r.
Qed.

Lemma fexp_eq k : fexp prec emax k = Z.max (k - 53) (-1074).
Proof. reflexivity. Qed.

Lemma shr_record_of_loc_m m l : shr_m (shr_record_of_loc m l) = m.
Proof. destruct l as [|[| |]]; reflexivity. Qed.

Lemma shr_fexp_spec M e l :
  let n := Z.max 0 (fexp prec emax (Zpos (digits2_pos M) + e) - e) in
  shr_m (fst (shr_fexp prec emax (Zpos M) e l)) = Z.shiftr (Zpos M) n /\
  snd (shr_fexp prec emax (Zpos M) e l) = e + n.
Proof.
  unfold shr_fexp. cbn [Zdigits2].
  pose proof (shr_spec (shr_record_of_loc (Zpos M) l) e
                (fexp prec emax (Zpos (digits2_pos M) + e) - e)) as H.
  rewrite shr_record_of_loc_m in H. apply H. lia.
Qed.

Lemma shiftr_pos M n :
  0 <= n < Zpos (digits2_pos M) ->
  exists M', Z.shiftr (Zpos M) n = Zpos M' /\
             Zpos (digits2_pos M') = Zpos (digits2_pos M) - n.
Proof.
  intros Hn. rewrite Zdigits_log2 in Hn.
  assert (H0 : 0 <= Z.shiftr (Zpos M) n) by (apply Z.shiftr_nonneg; lia).
  assert (H1 : Z.shiftr (Zpos M) n <> 0).
  { intros H. apply Z.shiftr_eq_0_iff in H. destruct H as [H|[_ H]]; lia. }
  destruct (Z.shiftr (Zpos M) n) as [|M'|M'] eqn:E; try lia.
  exists M'. split; [reflexivity|].
  rewrite !Zdigits_log2, <- E, Z.log2_shiftr by lia. lia.
Qed.

Lemma round_nearest_even_pos M l :
  exists M', round_nearest_even (Zpos M) l = Zpos M' /\
    (Zpos M' = Zpos M \/ Zpos M' = Zpos M + 1) /\
    Zpos (digits2_pos M) <= Zpos (digits2_pos M') <= Zpos (digits2_pos M) + 1.
Proof.
  assert (Hs : forall M', Zpos M' = Zpos M + 1 ->
     Zpos (digits2_pos M) <= Zpos (digits2_pos M') <= Zpos (digits2_pos M) + 1).
  { intros M' HM'. rewrite !Zdigits_log2, HM'.
    pose proof (Z.log2_succ_le (Zpos M)).
    pose proof (Z.log2_le_mono (Zpos M) (Zpos M + 1)). unfold Z.succ in *. lia. }
  assert (Hsucc : exists M', Zpos M + 1 = Zpos M') by (exists (M + 1)%positive; lia).
  destruct Hsucc as [M1 HM1].
  destruct l as [|[| |]]; cbn [round_nearest_even].
  - exists M. repeat split; lia.
  - destruct (Z.even (Zpos M)).
    + exists M. repeat split; lia.
    + exists M1. rewrite HM1. split; [reflexivity|]. split; [lia|]. apply Hs; lia.
  - exists M. repeat split; lia.
  - exists M1. rewrite HM1. split; [reflexivity|]. split; [lia|]. apply Hs; lia.
Qed.

(** Rounding a positive mantissa whose shift leaves at least one digit:
    the sign is kept, and the exponent is the target one or the next. *)
Lemma binary_round_aux_spec s M e l :
  let d := Zpos (digits2_pos M) in
  let E := Z.max e (fexp prec emax (d + e)) in
  E - e < d ->
  exists m' e', E <= e' <= E + 1 /\
    (e <= fexp prec emax (d + e) ->
     fexp prec emax (Zpos (digits2_pos m') + e') = e') /\
    binary_round_aux prec emax s (Zpos M) e l =
      if e' <=? emax - prec then S754_finite s m' e' else S754_infinity s.
Proof.
  intros d E Hd. unfold binary_round_aux.
  pose proof (shr_fexp_spec M e l) as H1. cbv zeta in H1.
  destruct (shr_fexp prec emax (Zpos M) e l) as [mrs1 e1].
  cbn [fst snd] in H1. destruct H1 as [Hm1 He1].
  fold d in Hm1, He1.
  destruct (shiftr_pos M (Z.max 0 (fexp prec emax (d + e) - e))) as (M1 & HM1 & Hd1).
  { fold d. subst E. lia. }
  rewrite HM1 in Hm1. rewrite Hm1.
  destruct (round_nearest_even_pos M1 (loc_of_shr_record mrs1)) as (M2 & HM2 & _ & Hd2).
  rewrite HM2.
  pose proof (shr_fexp_spec M2 e1 loc_Exact) as H2. cbv zeta in H2.
  destruct (shr_fexp prec emax (Zpos M2) e1 loc_Exact) as [mrs2 e2].
  cbn [fst snd] in H2. destruct H2 as [Hm2 He2].
  fold d in Hd1. rewrite fexp_eq in *. 
  destruct (shiftr_pos M2 (Z.max 0 (Z.max (Zpos (digits2_pos M2) + e1 - 53) (-1074) - e1)))
    as (M3 & HM3 & Hd3).
  { subst E. lia. }
  rewrite HM3 in Hm2. rewrite Hm2.
  exists M3, e2. subst E. rewrite !fexp_eq in *.
  split; [lia|]. split; [lia|reflexivity].
Qed.

Lemma pos_iter_xO m d : Zpos (Pos.iter xO m d) = Zpos m * 2 ^ Zpos d.
Proof.
  change (Pos.iter xO m d) with (shift_pos d m).
  rewrite shift_pos_correct, Z.pow_pos_fold. lia.
Qed.

Lemma shl_align_le m e e' :
  e' <= e ->
  Zpos (fst (shl_align m e e')) = Zpos m * 2 ^ (e - e') /\
  snd (shl_align m e e') = e'.
Proof.
  intros H. unfold shl_align.
  destruct (e' - e) as [|d|d] eqn:E; cbn [fst snd]; try lia.
  - replace (e - e') with 0 by lia. lia.
  - rewrite pos_iter_xO. replace (e - e') with (Zpos d) by lia. split; reflexivity.
Qed.

Lemma shl_align_ge m e e' : e <= e' -> shl_align m e e' = (m, e).
Proof.
  intros H. unfold shl_align. destruct (e' - e) eqn:E; try reflexivity; lia.
Qed.

Lemma Zdigits_mul_pow2 m m' k :
  0 <= k -> Zpos m' = Zpos m * 2 ^ k ->
  Zpos (digits2_pos m') = Zpos (digits2_pos m) + k.
Proof.
  intros Hk H. rewrite !Zdigits_log2, H, Z.log2_mul_pow2 by lia. lia.
Qed.

(** Rounding a positive integer multiple of [2 ^ e] that is not below the
    smallest subnormal: the result is not zero and keeps the sign. *)
Lemma binary_round_spec s M e :
  let f := fexp prec emax (Zpos (digits2_pos M) + e) in
  -1074 < Zpos (digits2_pos M) + e ->
  exists m' e', f <= e' <= f + 1 /\
    fexp prec emax (Zpos (digits2_pos m') + e') = e' /\
    binary_round prec emax s M e =
      if e' <=? emax - prec then S754_finite s m' e' else S754_infinity s.
Proof.
  intros f Hlow. unfold binary_round. fold f.
  destruct (Z_le_gt_dec f e) as [Hfe|Hfe].
  - pose proof (shl_align_le M e f Hfe) as [Hm He].
    destruct (shl_align M e f) as [mz ez]. cbn [fst snd] in Hm, He. subst ez.
    pose proof (Zdigits_mul_pow2 M mz (e - f) ltac:(lia) Hm) as Hd.
    destruct (binary_round_aux_spec s mz f loc_Exact) as (m' & e' & He' & Hc & Hr).
    + rewrite Hd. replace (Zpos (digits2_pos M) + (e - f) + f)
        with (Zpos (digits2_pos M) + e) by lia. fold f. lia.
    + rewrite Hd in He', Hc. replace (Zpos (digits2_pos M) + (e - f) + f)
        with (Zpos (digits2_pos M) + e) in He', Hc by lia. fold f in He', Hc.
      exists m', e'. split; [lia|]. split; [apply Hc; lia|exact Hr].
  - rewrite shl_align_ge by lia.
    destruct (binary_round_aux_spec s M e loc_Exact) as (m' & e' & He' & Hc & Hr).
    + fold f. subst f. rewrite !fexp_eq in *. lia.
    + fold f in He', Hc.
      exists m', e'. split; [lia|]. split; [apply Hc; lia|exact Hr].
Qed.

Lemma shr_fexp_round_bit M e :
  let n := fexp prec emax (Zpos (digits2_pos M) + e) - e in
  1 <= n ->
  shr_r (fst (shr_fexp prec emax (Zpos M) e loc_Exact)) =
    Z.odd (Z.shiftr (Zpos M) (n - 1)).
Proof.
  intros n Hn. unfold shr_fexp. cbn [Zdigits2 shr_record_of_loc]. fold n.
  destruct n as [|p|p] eqn:E; try lia.
  cbn [shr fst]. rewrite iter_pos_nat.
  destruct (Pos.to_nat p) as [|k] eqn:Ek; [lia|].
  rewrite shr_r_iter by (cbn; lia). cbn [shr_m].
  f_equal. f_equal. lia.
Qed.

(** Rounding that only drops bits below the round bit: the mantissa is
    truncated and there is no carry. *)
Lemma binary_round_aux_trunc s M e :
  let d := Zpos (digits2_pos M) in
  let n := fexp prec emax (d + e) - e in
  1 <= n < d ->
  Z.odd (Z.shiftr (Zpos M) (n - 1)) = false ->
  exists m', Zpos m' = Z.shiftr (Zpos M) n /\
    binary_round_aux prec emax s (Zpos M) e loc_Exact =
      if e + n <=? emax - prec then S754_finite s m' (e + n)
      else S754_infinity s.
Proof.
  intros d n Hn Hodd. unfold binary_round_aux.
  pose proof (shr_fexp_spec M e loc_Exact) as H1. cbv zeta in H1.
  pose proof (shr_fexp_round_bit M e) as Hr. cbv zeta in Hr.
  fold d in H1, Hr. fold n in H1, Hr. specialize (Hr ltac:(lia)).
  destruct (shr_fexp prec emax (Zpos M) e loc_Exact) as [mrs1 e1].
  cbn [fst snd] in H1, Hr. destruct H1 as [Hm1 He1].
  replace (Z.max 0 n) with n in * by lia.
  destruct (shiftr_pos M n) as (M1 & HM1 & Hd1); [fold d; lia|].
  rewrite HM1 in Hm1. rewrite Hodd in Hr.
  assert (Hrne : round_nearest_even (shr_m mrs1) (loc_of_shr_record mrs1) = Zpos M1).
  { destruct mrs1 as [m1 r1 s1]. cbn [shr_m shr_r] in *. subst r1 m1.
    destruct s1; reflexivity. }
  rewrite Hrne.
  pose proof (shr_fexp_spec M1 e1 loc_Exact) as H2. cbv zeta in H2.
  destruct (shr_fexp prec emax (Zpos M1) e1 loc_Exact) as [mrs2 e2].
  cbn [fst snd] in H2. destruct H2 as [Hm2 He2].
  assert (Hz : Z.max 0 (fexp prec emax (Zpos (digits2_pos M1) + e1) - e1) = 0).
  { rewrite Hd1. fold d. subst e1. replace (d - n + (e + n)) with (d + e) by lia.
    subst n. lia. }
  rewrite Hz in *. rewrite Z.shiftr_0_r in Hm2. rewrite Hm2.
  exists M1. split; [symmetry; exact HM1|]. subst e2 e1.
  now rewrite Z.add_0_r.
Qed.

Lemma bounded_spec m e :
  bounded prec emax m e = true ->
  Z.max (Zpos (digits2_pos m) + e - 53) (-1074) = e /\ e <= 971.
Proof.
  unfold bounded, canonical_mantissa. rewrite fexp_eq.
  change (emax - prec) with 971.
  rewrite andb_true_iff, Z.eqb_eq, Z.leb_le. tauto.
Qed.

Lemma digits_bounds M :
  2 ^ (Zpos (digits2_pos M) - 1) <= Zpos M < 2 ^ Zpos (digits2_pos M).
Proof.
  rewrite Zdigits_log2. replace (Z.log2 (Zpos M) + 1 - 1) with (Z.log2 (Zpos M)) by lia.
  apply Z.log2_spec. lia.
Qed.

Lemma digits_le M K : 0 <= K -> Zpos M < 2 ^ K -> Zpos (digits2_pos M) <= K.
Proof.
  intros HK H. rewrite Zdigits_log2. apply Z.log2_lt_pow2 in H; lia.
Qed.

Lemma digits_ge M K : 0 <= K -> 2 ^ K <= Zpos M -> K + 1 <= Zpos (digits2_pos M).
Proof.
  intros HK H. rewrite Zdigits_log2. apply Z.log2_le_pow2 in H; lia.
Qed.

Lemma round_result_ge s m' e' k :
  s = false -> k <= e' ->
  sf_ge_exp k (if e' <=? emax - prec then S754_finite s m' e' else S754_infinity s).
Proof. intros -> H. destruct (e' <=? emax - prec); cbn; auto. Qed.

Lemma binary_normalize_pos M ez k :
  0 < M -> -1074 <= ez ->
  (forall p, Zpos p = M -> k <= fexp prec emax (Zpos (digits2_pos p) + ez)) ->
  sf_ge_exp k (binary_normalize prec emax M ez false).
Proof.
  intros HM Hez Hk. destruct M as [|p|p]; try lia.
  cbn [binary_normalize].
  destruct (binary_round_spec false p ez) as (m' & e' & He' & _ & Hr).
  { pose proof (Pos2Z.is_pos (digits2_pos p)). lia. }
  rewrite Hr. apply round_result_ge; [reflexivity|].
  specialize (Hk p eq_refl). lia.
Qed.

Lemma binary_normalize_neg M ez :
  M < 0 -> -1074 <= ez ->
  (forall p, Zpos p = - M -> Zpos (digits2_pos p) + ez <= 1023) ->
  exists m' e', binary_normalize prec emax M ez false = S754_finite true m' e'.
Proof.
  intros HM Hez Hd. destruct M as [|p|p]; try lia.
  cbn [binary_normalize].
  destruct (binary_round_spec true p ez) as (m' & e' & He' & _ & Hr).
  { pose proof (Pos2Z.is_pos (digits2_pos p)). lia. }
  specialize (Hd p eq_refl). rewrite fexp_eq in He'.
  exists m', e'. rewrite Hr. change (emax - prec) with 971.
  replace (e' <=? 971) with true; [reflexivity|].
  symmetry. apply Z.leb_le. lia.
Qed.

Lemma SFsub_one s m e :
  let ez := Z.min e (-52) in
  SF64sub (S754_finite s m e) SF1 =
    binary_normalize prec emax
      (cond_Zopp s (Zpos m * 2 ^ (e - ez)) - 4503599627370496 * 2 ^ (-52 - ez))
      ez false.
Proof.
  intros ez. unfold SF64sub, SFsub, SF1. cbv zeta. fold ez.
  destruct (shl_align_le m e ez ltac:(lia)) as [H1 _].
  destruct (shl_align_le 4503599627370496 (-52) ez ltac:(lia)) as [H2 _].
  rewrite H1, H2. reflexivity.
Qed.

Lemma mantissa_lt m e : bounded prec emax m e = true -> Zpos m < 2 ^ 53.
Proof.
  intros Hb. destruct (bounded_spec m e Hb) as [Hc _].
  pose proof (digits_bounds m) as [_ H].
  eapply Z.lt_le_trans; [exact H|]. apply Z.pow_le_mono_r; lia.
Qed.

Lemma mantissa_normal m e :
  bounded prec emax m e = true -> -1074 < e ->
  Zpos (digits2_pos m) = 53 /\ 2 ^ 52 <= Zpos m.
Proof.
  intros Hb He. destruct (bounded_spec m e Hb) as [Hc _].
  assert (Hd : Zpos (digits2_pos m) = 53) by lia.
  split; [exact Hd|]. pose proof (digits_bounds m) as [H _].
  rewrite Hd in H. exact H.
Qed.

Lemma pow2_pos k : 0 < 2 ^ k \/ 2 ^ k = 0.
Proof. destruct (Z_le_gt_dec 0 k); [left; apply Z.pow_pos_nonneg; lia|right; apply Z.pow_neg_r; lia]. Qed.

Lemma SFsub_one_lt s m e :
  bounded prec emax m e = true ->
  SFltb (S754_finite s m e) SF1 = true ->
  exists m' e', SF64sub (S754_finite s m e) SF1 = S754_finite true m' e'.
Proof.
  intros Hb Hlt. destruct (bounded_spec m e Hb) as [Hc He].
  pose proof (mantissa_lt m e Hb) as Hm.
  rewrite SFsub_one. cbv zeta.
  destruct s; cbn [cond_Zopp].
  - destruct (Z_le_gt_dec e 1) as [He1|He1].
    + assert (HP : 0 < 2 ^ (e - Z.min e (-52))) by (apply Z.pow_pos_nonneg; lia).
      assert (HQ : 0 < 2 ^ (-52 - Z.min e (-52))) by (apply Z.pow_pos_nonneg; lia).
      apply binary_normalize_neg; [nia|lia|].
      intros p Hp.
      destruct (Z_le_gt_dec (-52) e) as [He2|He2].
      * replace (Z.min e (-52)) with (-52) in * by lia.
        replace (-52 - -52) with 0 in * by lia. rewrite Z.pow_0_r in Hp.
        assert (Zpos (digits2_pos p) <= e + 106); [|lia].
        apply digits_le; [lia|].
        replace (e + 106) with (54 + (e - -52)) by lia.
        rewrite Z.pow_add_r by lia.
        change (2 ^ 53) with 9007199254740992 in Hm.
        change (2 ^ 54) with 18014398509481984. nia.
      * replace (Z.min e (-52)) with e in * by lia.
        replace (e - e) with 0 in * by lia. rewrite Z.pow_0_r in Hp.
        assert (Zpos (digits2_pos p) <= 2 - e); [|lia].
        apply digits_le; [lia|].
        replace (2 - e) with (54 + (-52 - e)) by lia.
        rewrite Z.pow_add_r by lia.
        change (2 ^ 53) with 9007199254740992 in Hm.
        change (2 ^ 54) with 18014398509481984. nia.
    + (* |x| >= 2^54: x - 1 rounds back to x *)
      replace (Z.min e (-52)) with (-52) by lia.
      replace (-52 - -52) with 0 by lia. rewrite Z.pow_0_r.
      destruct (mantissa_normal m e Hb ltac:(lia)) as [Hd Hm2].
      assert (HP : 2 ^ 52 * 2 <= 2 ^ (e - -52)).
      { change (2 ^ 52 * 2) with (2 ^ 53). apply Z.pow_le_mono_r; lia. }
      destruct (- (Zpos m * 2 ^ (e - -52)) - 4503599627370496 * 1) as [|p|p] eqn:Hp;
        try (change (2 ^ 52) with 4503599627370496 in *; nia).
      cbn [binary_normalize]. unfold binary_round.
      assert (Hdp : Zpos (digits2_pos p) = e + 105).
      { rewrite Zdigits_log2. rewrite (Z.log2_unique (Zpos p) (e + 104)); [lia|lia|].
        replace (Z.succ (e + 104)) with (53 + (e - -52)) by lia.
        replace (e + 104) with (52 + (e - -52)) by lia.
        rewrite !Z.pow_add_r by lia.
        change (2 ^ 53) with 9007199254740992 in *.
        change (2 ^ 52) with 4503599627370496 in *. nia. }
      rewrite Hdp. rewrite fexp_eq.
      replace (Z.max (e + 105 + -52 - 53) (-1074)) with e by lia.
      rewrite shl_align_ge by lia.
      destruct (binary_round_aux_trunc true p (-52)) as (m' & Hm' & Hr).
      * rewrite Hdp, fexp_eq. lia.
      * rewrite Hdp, fexp_eq.
        replace (Z.max (e + 105 + -52 - 53) (-1074) - -52 - 1) with (e + 51) by lia.
        rewrite Z.shiftr_div_pow2 by lia.
        replace (Zpos p) with (2 * Zpos m * 2 ^ (e + 51) + 4503599627370496).
        2:{ replace (e - -52) with (1 + (e + 51)) in Hp by lia.
            rewrite Z.pow_add_r in Hp by lia. change (2 ^ 1) with 2 in Hp. lia. }
        rewrite Z.div_add_l by (apply Z.pow_nonzero; lia).
        rewrite Z.div_small.
        2:{ split; [lia|]. change 4503599627370496 with (2 ^ 52).
            apply Z.pow_lt_mono_r; lia. }
        rewrite Z.add_0_r, Z.odd_mul. reflexivity.
      * rewrite Hdp, fexp_eq in Hr. rewrite Hr.
        replace (-52 + (Z.max (e + 105 + -52 - 53) (-1074) - -52)) with e by lia.
        change (emax - prec) with 971.
        replace (e <=? 971) with true by (symmetry; apply Z.leb_le; lia).
        eauto.
  - unfold SFltb, SFcompare, SF1 in Hlt.
    assert (HP : 0 < 2 ^ (e - Z.min e (-52))) by (apply Z.pow_pos_nonneg; lia).
    assert (HQ : 0 < 2 ^ (-52 - Z.min e (-52))) by (apply Z.pow_pos_nonneg; lia).
    destruct (Z.compare_spec e (-52)) as [Heq|Hl|Hg]; try discriminate.
    + destruct (Pos.compare_cont Eq m 4503599627370496) eqn:Hml; try discriminate.
      apply Pos.compare_lt_iff, Pos2Z.pos_lt_pos in Hml.
      subst e. change (Z.min (-52) (-52)) with (-52) in *.
      change (2 ^ (-52 - -52)) with 1 in *.
      apply binary_normalize_neg; [lia|lia|].
      intros p Hp. assert (Zpos (digits2_pos p) <= 52); [|lia].
      apply digits_le; [lia|]. change (2 ^ 52) with 4503599627370496. lia.
    + replace (Z.min e (-52)) with e in * by lia.
      replace (e - e) with 0 in * by lia. rewrite Z.pow_0_r in *.
      assert (HQ2 : 2 ^ 53 <= 4503599627370496 * 2 ^ (-52 - e)).
      { change 4503599627370496 with (2 ^ 52). rewrite <- Z.pow_add_r by lia.
        apply Z.pow_le_mono_r; lia. }
      apply binary_normalize_neg; [lia|lia|].
      intros p Hp. assert (Zpos (digits2_pos p) <= - e); [|lia].
      apply digits_le; [lia|].
      replace (- e) with (52 + (-52 - e)) by lia. rewrite Z.pow_add_r by lia.
      change (2 ^ 52) with 4503599627370496. lia.
Qed.

Lemma SFsub_one_nonneg m e :
  bounded prec emax m e = true -> -52 <= e ->
  (Zpos m = 4503599627370496 /\ e = -52 /\
     SF64sub (S754_finite false m e) SF1 = S754_zero false) \/
  ((4503599627370496 < Zpos m \/ -52 < e) /\
     sf_ge_exp (-1074) (SF64sub (S754_finite false m e) SF1)).
Proof.
  intros Hb He. destruct (mantissa_normal m e Hb ltac:(lia)) as [Hd Hm].
  change (2 ^ 52) with 4503599627370496 in Hm.
  rewrite SFsub_one. cbv zeta. cbn [cond_Zopp].
  replace (Z.min e (-52)) with (-52) by lia.
  change (2 ^ (-52 - -52)) with 1.
  assert (HP : 1 <= 2 ^ (e - -52)).
  { change 1 with (2 ^ 0). apply Z.pow_le_mono_r; lia. }
  destruct (Z.eq_dec (Zpos m) 4503599627370496) as [Hm1|Hm1];
    [destruct (Z.eq_dec e (-52)) as [He1|He1]|].
  - left. subst e. rewrite Hm1. repeat split. 
  - right. split; [lia|].
    assert (2 <= 2 ^ (e - -52)).
    { change 2 with (2 ^ 1) at 1. apply Z.pow_le_mono_r; lia. }
    apply binary_normalize_pos; [nia|lia|].
    intros p _. rewrite fexp_eq. lia.
  - right. split; [lia|].
    apply binary_normalize_pos; [nia|lia|].
    intros p _. rewrite fexp_eq. lia.
Qed.

Lemma SFadd_pos_ge k mx ex my ey :
  bounded prec emax mx ex = true -> -1074 < k <= ex -> -1074 <= ey ->
  sf_ge_exp k (SF64add (S754_finite false mx ex) (S754_finite false my ey)).
Proof.
  intros Hb Hk Hey. destruct (mantissa_normal mx ex Hb ltac:(lia)) as [Hd Hm].
  unfold SF64add, SFadd. cbv zeta. cbn [cond_Zopp].
  set (ez := Z.min ex ey).
  destruct (shl_align_le mx ex ez ltac:(lia)) as [H1 _].
  destruct (shl_align_le my ey ez ltac:(lia)) as [H2 _].
  rewrite H1, H2.
  assert (HQ : 0 <= 2 ^ (ey - ez)) by (apply Z.pow_nonneg; lia).
  assert (HP : 0 < 2 ^ (ex - ez)) by (apply Z.pow_pos_nonneg; lia).
  apply binary_normalize_pos; [nia|lia|].
  intros p Hp. rewrite fexp_eq.
  assert (52 + (ex - ez) + 1 <= Zpos (digits2_pos p)); [|lia].
  apply digits_ge; [lia|]. rewrite Z.pow_add_r by lia. nia.
Qed.

Lemma SFmul_half_ge k m e :
  bounded prec emax m e = true -> -1074 < k -> k + 1 <= e ->
  sf_ge_exp k (SF64mul SFhalf (S754_finite false m e)).
Proof.
  intros Hb Hk He. destruct (mantissa_normal m e Hb ltac:(lia)) as [Hd Hm].
  unfold SF64mul, SFmul, SFhalf. cbn [xorb].
  assert (Hdp : Zpos (digits2_pos (4503599627370496 * m)) = 53 + 52).
  { rewrite <- Hd. apply Zdigits_mul_pow2; [lia|].
    rewrite Pos2Z.inj_mul. change (2 ^ 52) with 4503599627370496. lia. }
  destruct (binary_round_aux_spec false (4503599627370496 * m) (-53 + e) loc_Exact)
    as (m' & e' & He' & _ & Hr).
  - rewrite Hdp, fexp_eq. lia.
  - rewrite Hr. apply round_result_ge; [reflexivity|].
    rewrite Hdp, fexp_eq in He'. lia.
Qed.

Lemma SFdiv_two_ge k m e :
  bounded prec emax m e = true -> -1074 < k -> k + 1 <= e ->
  sf_ge_exp k (SF64div (S754_finite false m e) SF2).
Proof.
  intros Hb Hk He. destruct (mantissa_normal m e Hb ltac:(lia)) as [Hd Hm].
  unfold SF64div, SFdiv, SF2, SFdiv_core_binary. cbn [xorb Zdigits2].
  rewrite Hd. change (Zpos (digits2_pos 4503599627370496)) with 53.
  rewrite fexp_eq.
  replace (Z.min (Z.max (53 + e - (53 + -51) - 53) (-1074)) (e - -51)) with (e - 2) by lia.
  replace (e - -51 - (e - 2)) with 53 by lia.
  rewrite Z.shiftl_mul_pow2 by lia.
  assert (Hdiv : Z.div_eucl (Zpos m * 2 ^ 53) 4503599627370496 = (Zpos (m~0), 0)).
  { pose proof (Z_div_mod (Zpos m * 2 ^ 53) 4503599627370496 ltac:(lia)) as H.
    destruct (Z.div_eucl (Zpos m * 2 ^ 53) 4503599627370496) as [q r].
    destruct H as [H1 H2]. change (2 ^ 53) with 9007199254740992 in H1.
    f_equal; lia. }
  rewrite Hdiv. cbn [new_location Z.even new_location_even Z.eqb].
  destruct (binary_round_aux_spec false (m~0) (e - 2) loc_Exact)
    as (m' & e' & He' & _ & Hr).
  - cbn [digits2_pos]. rewrite Pos2Z.inj_succ, Hd, fexp_eq. lia.
  - rewrite Hr. apply round_result_ge; [reflexivity|].
    cbn [digits2_pos] in He'. rewrite Pos2Z.inj_succ, Hd, fexp_eq in He'. lia.
Qed.

End Rounding.

(** ** Floats through their bit-level form *)

Lemma SFeqb_finite_refl s m e :
  SFeqb (S754_finite s m e) (S754_finite s m e) = true.
Proof.
  unfold SFeqb, SFcompare. rewrite Z.compare_refl, Pcompare_refl.
  destruct s; reflexivity.
Qed.

Lemma valid_finite x s m e :
  Prim2SF x = S754_finite s m e -> bounded prec emax m e = true.
Proof. intros H. pose proof (Prim2SF_valid x) as V. rewrite H in V. exact V. Qed.

Lemma float_of_SF x y : Prim2SF x = Prim2SF y -> x = y.
Proof. apply Prim2SF_inj. Qed.

Lemma neg_finite_tests w :
  neg_finite w ->
  (w =? 0) = false /\ is_nan w = false /\ is_infinity w = false /\
  (w <? 0) = true.
Proof.
  intros (m & e & H). unfold is_nan, is_infinity.
  rewrite !eqb_spec, ltb_spec, abs_spec, H. cbn [SFabs].
  rewrite SFeqb_finite_refl. repeat split; reflexivity.
Qed.

Lemma positive_float_tests w :
  positive_float w ->
  (w =? 0) = false /\ is_nan w = false /\ (0 <? w) = true /\ (w <? 0) = false.
Proof.
  unfold positive_float, is_nan. rewrite !eqb_spec, !ltb_spec.
  destruct (Prim2SF w) as [s|[|]| |[|] m e]; cbn [sf_ge_exp]; try contradiction; intros _.
  - repeat split; reflexivity.
  - rewrite SFeqb_finite_refl. repeat split; reflexivity.
Qed.

Lemma float_is_zero w : Prim2SF w = S754_zero false -> w = 0.
Proof. intros H. apply float_of_SF. rewrite H. reflexivity. Qed.

Lemma add_nan_r x : x + nan = nan.
Proof. apply float_of_SF. rewrite add_spec. destruct (Prim2SF x); reflexivity. Qed.

Lemma mul_nan_l x : nan * x = nan.
Proof. apply float_of_SF. rewrite mul_spec. destruct (Prim2SF x); reflexivity. Qed.

Lemma is_infinity_abs w : is_infinity w = true -> abs w = infinity.
Proof.
  unfold is_infinity. rewrite eqb_spec. intros H. apply float_of_SF.
  destruct (Prim2SF (abs w)) as [s|[|]| |s m e]; try discriminate H; reflexivity.
Qed.

Section Pow.

Context {L : PyFloat.Libm}.

Lemma pow_zero_neg w : neg_finite w -> PyFloat.pow 0 w = Raise ZeroDivisionError.
Proof.
  intros H. destruct (neg_finite_tests w H) as (H0 & Hn & Hi & Hl).
  unfold PyFloat.pow. rewrite H0, Hn, Hi, Hl. reflexivity.
Qed.

Lemma pow_zero_pos w : positive_float w -> PyFloat.pow 0 w = Ret 0.
Proof.
  intros H. destruct (positive_float_tests w H) as (H0 & Hn & Hp & Hl).
  unfold PyFloat.pow. rewrite H0, Hn, Hp, Hl.
  destruct (is_infinity w), (PyFloat.is_odd_integer w); reflexivity.
Qed.

Lemma pow_inf_pos w : positive_float w -> PyFloat.pow infinity w = Ret infinity.
Proof.
  intros H. destruct (positive_float_tests w H) as (H0 & Hn & Hp & Hl).
  unfold PyFloat.pow. rewrite H0, Hn, Hp.
  destruct (is_infinity w) eqn:Hi.
  - rewrite (is_infinity_abs w Hi). reflexivity.
  - destruct (PyFloat.is_odd_integer w); reflexivity.
Qed.

Lemma pow_nan w : (w =? 0) = false -> PyFloat.pow nan w = Ret nan.
Proof. intros H. unfold PyFloat.pow. rewrite H. reflexivity. Qed.

End Pow.

Lemma Prim2SF_one : Prim2SF 1 = SF1.
Proof. reflexivity. Qed.

Lemma sub_one_lt x :
  is_finite x = true -> (x <? 1) = true -> neg_finite (x - 1).
Proof.
  unfold neg_finite, is_finite, is_nan, is_infinity.
  rewrite ltb_spec, sub_spec, !eqb_spec, abs_spec, Prim2SF_one.
  intros Hf Hlt. destruct (Prim2SF x) as [s|s| |s m e] eqn:Hx.
  - cbn. eauto.
  - destruct s; discriminate.
  - discriminate.
  - apply SFsub_one_lt; [|exact Hlt]. exact (valid_finite x s m e Hx).
Qed.

Lemma SFltb_one_finite s m e :
  SFltb SF1 (S754_finite s m e) = true ->
  s = false /\ ((4503599627370496 < Zpos m)%Z \/ (-52 < e)%Z) /\ (-52 <= e)%Z.
Proof.
  unfold SFltb, SFcompare, SF1. destruct s; [discriminate|].
  destruct (Z.compare_spec (-52) e) as [He|He|He]; try discriminate.
  - destruct (Pos.compare_cont Eq 4503599627370496 m) eqn:Hm; try discriminate.
    apply Pos.compare_lt_iff, Pos2Z.pos_lt_pos in Hm. intros _. subst e. lia.
  - intros _. lia.
Qed.

Lemma sub_one_gt x : (1 <? x) = true -> positive_float (x - 1).
Proof.
  unfold positive_float. rewrite ltb_spec, sub_spec, Prim2SF_one.
  intros Hlt. destruct (Prim2SF x) as [s|s| |s m e] eqn:Hx; try discriminate.
  - destruct s; [discriminate|exact I].
  - destruct (SFltb_one_finite s m e Hlt) as (-> & Hm & He).
    destruct (SFsub_one_nonneg m e (valid_finite x false m e Hx) He)
      as [(H1 & H2 & _)|[_ H]]; [lia|exact H].
Qed.

Lemma eqb_one x : (x =? 1) = true -> x = 1.
Proof.
  rewrite eqb_spec, Prim2SF_one. intros H. apply float_of_SF.
  rewrite Prim2SF_one. unfold SFeqb, SFcompare, SF1 in *.
  destruct (Prim2SF x) as [s|s| |s m e]; try discriminate;
    try (destruct s; discriminate).
  destruct s; [discriminate|].
  destruct (Z.compare_spec e (-52)) as [He|He|He]; try discriminate.
  destruct (Pos.compare_cont Eq m 4503599627370496) eqn:Hm; try discriminate.
  apply Pcompare_Eq_eq in Hm. now subst.
Qed.

(** For a float [x >= 1], [x - 1] is zero (and [x = 1]) or positive. *)
Lemma sub_one_ge x :
  sf_ge_exp (-52) (Prim2SF x) -> x = 1 \/ positive_float (x - 1).
Proof.
  unfold positive_float. rewrite sub_spec, Prim2SF_one. intros H.
  destruct (Prim2SF x) as [s|[|]| |[|] m e] eqn:Hx; cbn [sf_ge_exp] in H;
    try contradiction.
  - right. exact I.
  - destruct (SFsub_one_nonneg m e (valid_finite x false m e Hx) H)
      as [(H1 & H2 & _)|[_ H']]; [left|right; exact H'].
    apply float_of_SF. rewrite Hx, Prim2SF_one. unfold SF1.
    f_equal; [|exact H2]. now injection H1.
Qed.

Lemma for_each_sample_nan (f : float -> result float) (a h t : float) xs acc :
  forallb (sample_is a h t) xs = true ->
  f t = Ret nan ->
  for_each xs acc (fun i sum_area =>
      i' <- PyFloat.of_int i ;;
      v <- f (a + i' * h) ;;
      Ret (sum_area + v))
  = Ret (match xs with [] => acc | _ => nan end).
Proof.
  intros Hxs Hf. revert acc. induction xs as [|i xs IH]; intros acc.
  - reflexivity.
  - cbn [forallb] in Hxs. apply andb_true_iff in Hxs. destruct Hxs as [Hi Hxs].
    cbn [for_each]. unfold sample_is in Hi.
    destruct (PyFloat.of_int i) as [i'| |]; try discriminate.
    apply Leibniz.eqb_spec in Hi. cbn [bind]. rewrite Hi, Hf. cbn [bind].
    rewrite add_nan_r, (IH Hxs). destruct xs; reflexivity.
Qed.

Lemma gamma_function_samples :
  forallb (sample_is 0 infinity infinity) (py_range 1 1000) = true.
Proof. vm_compute. reflexivity. Qed.

Section Gamma.

Context {L : PyFloat.Libm}.

Lemma gamma_function_unfold alpha :
  gamma_function alpha =
    (fa <- gamma_function_integrand alpha 0 ;;
     fb <- gamma_function_integrand alpha infinity ;;
     sum_area <- for_each (py_range 1 1000) (0.5 * (fa + fb))
       (fun i sum_area =>
          i' <- PyFloat.of_int i ;;
          v <- gamma_function_integrand alpha (0 + i' * infinity) ;;
          Ret (sum_area + v)) ;;
     Ret (infinity * sum_area)).
Proof. reflexivity. Qed.

Lemma gamma_function_lt_one alpha :
  neg_finite (alpha - 1) -> gamma_function alpha = Raise ZeroDivisionError.
Proof.
  intros H. rewrite gamma_function_unfold. unfold gamma_function_integrand at 1.
  rewrite (pow_zero_neg _ H). reflexivity.
Qed.

Lemma gamma_function_gt_one alpha :
  positive_float (alpha - 1) -> gamma_function alpha = Ret nan.
Proof.
  intros H. rewrite gamma_function_unfold.
  assert (Ha : gamma_function_integrand alpha 0 = Ret 0).
  { unfold gamma_function_integrand. rewrite (pow_zero_pos _ H). reflexivity. }
  assert (Hb : gamma_function_integrand alpha infinity = Ret nan).
  { unfold gamma_function_integrand. rewrite (pow_inf_pos _ H). reflexivity. }
  rewrite Ha, Hb. cbn [bind].
  rewrite (for_each_sample_nan (gamma_function_integrand alpha) 0 infinity infinity
             _ _ gamma_function_samples Hb).
  reflexivity.
Qed.

Lemma gamma_function_one : gamma_function 1 = Ret infinity.
Proof. vm_compute. reflexivity. Qed.

End Gamma.

Lemma binary_round_aux_not_neg mx ex lx :
  SFltb (binary_round_aux prec emax false mx ex lx) (S754_zero false) = false.
Proof.
  unfold binary_round_aux.
  destruct (shr_fexp prec emax mx ex lx) as [mrs1 e1].
  destruct (shr_fexp prec emax _ e1 loc_Exact) as [mrs2 e2].
  destruct (shr_m mrs2); [reflexivity| |reflexivity].
  destruct (e2 <=? emax - prec)%Z; reflexivity.
Qed.

Lemma not_neg_SF x : (x <? 0) = false <-> sf_not_neg (Prim2SF x).
Proof. unfold sf_not_neg. rewrite ltb_spec. reflexivity. Qed.

Lemma sf_ge_exp_weaken k k' x : (k' <= k)%Z -> sf_ge_exp k x -> sf_ge_exp k' x.
Proof. destruct x as [s|[|]| |[|] m e]; cbn; auto. lia. Qed.

Lemma ge_exp_tests k x :
  sf_ge_exp k (Prim2SF x) ->
  (x =? 0) = false /\ is_nan x = false /\ (0 <? x) = true /\ (x <? 0) = false.
Proof.
  intros H. apply positive_float_tests. unfold positive_float.
  destruct (Prim2SF x) as [s|[|]| |[|] m e] eqn:Hx; cbn in *; auto.
  pose proof (valid_finite x false m e Hx) as Hb.
  destruct (bounded_spec m e Hb). lia.
Qed.

Lemma leb_four x : (4 <=? x) = true -> sf_ge_exp (-50) (Prim2SF x).
Proof.
  rewrite leb_spec. change (Prim2SF 4) with (S754_finite false 4503599627370496 (-50)).
  unfold SFleb, SFcompare.
  destruct (Prim2SF x) as [s|[|]| |[|] m e]; cbn [sf_ge_exp]; try discriminate; auto.
  destruct (Z.compare_spec (-50) e); try discriminate; intros _; lia.
Qed.

Lemma div_two_ge k x :
  (-1074 < k)%Z -> sf_ge_exp (k + 1) (Prim2SF x) -> sf_ge_exp k (Prim2SF (x / 2)).
Proof.
  intros Hk H. rewrite div_spec. change (Prim2SF 2) with SF2.
  destruct (Prim2SF x) as [s|[|]| |[|] m e] eqn:Hx; cbn [sf_ge_exp] in H;
    try contradiction.
  - exact I.
  - apply SFdiv_two_ge; [exact (valid_finite x false m e Hx)|lia|lia].
Qed.

Lemma mul_half_ge k x :
  (-1074 < k)%Z -> sf_ge_exp (k + 1) (Prim2SF x) -> sf_ge_exp k (Prim2SF (0.5 * x)).
Proof.
  intros Hk H. rewrite mul_spec. change (Prim2SF 0.5) with SFhalf.
  destruct (Prim2SF x) as [s|[|]| |[|] m e] eqn:Hx; cbn [sf_ge_exp] in H;
    try contradiction.
  - exact I.
  - apply SFmul_half_ge; [exact (valid_finite x false m e Hx)|lia|lia].
Qed.

Lemma add_const_ge k x my ey :
  (-1074 < k)%Z -> (-1074 <= ey)%Z -> sf_ge_exp k (Prim2SF x) ->
  sf_ge_exp k (SF64add (Prim2SF x) (S754_finite false my ey)).
Proof.
  intros Hk Hey H.
  destruct (Prim2SF x) as [s|[|]| |[|] m e] eqn:Hx; cbn [sf_ge_exp] in H;
    try contradiction.
  - exact I.
  - apply SFadd_pos_ge; [exact (valid_finite x false m e Hx)|lia|lia].
Qed.

Lemma add_half_ge k x :
  (-1074 < k)%Z -> sf_ge_exp k (Prim2SF x) -> sf_ge_exp k (Prim2SF (x + 0.5)).
Proof.
  intros Hk H. rewrite add_spec. change (Prim2SF 0.5) with SFhalf.
  apply add_const_ge; [lia|lia|exact H].
Qed.

Lemma add_one_ge k x :
  (-1074 < k)%Z -> sf_ge_exp k (Prim2SF x) -> sf_ge_exp k (Prim2SF (x + 1)).
Proof.
  intros Hk H. rewrite add_spec, Prim2SF_one.
  apply add_const_ge; [lia|lia|exact H].
Qed.

Lemma truediv_nonzero x y : (y =? 0) = false -> PyFloat.truediv x y = Ret (x / y).
Proof. intros H. unfold PyFloat.truediv. now rewrite H. Qed.

Lemma sub_neg_infinity z : is_finite z = true -> z - neg_infinity = infinity.
Proof.
  unfold is_finite, is_nan, is_infinity. rewrite !eqb_spec, abs_spec.
  intros H. apply float_of_SF. rewrite sub_spec.
  change (Prim2SF neg_infinity) with (S754_infinity true).
  destruct (Prim2SF z) as [s|[|]| |s m e]; try discriminate; reflexivity.
Qed.

Lemma div_nan_l x : nan / x = nan.
Proof. apply float_of_SF. rewrite div_spec. destruct (Prim2SF x); reflexivity. Qed.

Lemma mul_inf_or_nan_not_zero r g : inf_or_nan g -> (r * g =? 0) = false.
Proof.
  intros [->| ->]; rewrite eqb_spec, mul_spec;
    destruct (Prim2SF r) as [[|]|[|]| |[|] m e]; reflexivity.
Qed.

Lemma div_inf_or_nan n r g :
  inf_or_nan n -> inf_or_nan g -> n / (r * g) = nan.
Proof.
  intros [->| ->] [->| ->]; apply float_of_SF; rewrite div_spec, mul_spec;
    destruct (Prim2SF r) as [[|]|[|]| |[|] m e]; reflexivity.
Qed.

Lemma mul_pi_not_neg k m : sf_ge_exp k (Prim2SF m) -> (m * PyFloat.pi <? 0) = false.
Proof.
  intros H. rewrite ltb_spec, mul_spec.
  destruct (Prim2SF m) as [s|[|]| |[|] mm e]; cbn [sf_ge_exp] in H; try contradiction.
  - reflexivity.
  - change (Prim2SF 0) with (S754_zero false).
    apply binary_round_aux_not_neg.
Qed.

(** The outcome is a float or an exception. *)
Lemma is_finite_tests z :
  is_finite z = true -> is_nan z = false /\ is_infinity z = false.
Proof.
  unfold is_finite. destruct (is_nan z), (is_infinity z); intros H;
    try discriminate H; auto.
Qed.

Lemma binary_round_not_neg p e : sf_not_neg (binary_round prec emax false p e).
Proof.
  unfold sf_not_neg, binary_round.
  destruct (shl_align p e _) as [mz ez]. apply binary_round_aux_not_neg.
Qed.

Lemma sf_not_neg_cases x :
  sf_not_neg x ->
  match x with
  | S754_finite true _ _ | S754_infinity true => False
  | _ => True
  end.
Proof. destruct x as [s|[|]| |[|] m e]; cbn; auto; discriminate. Qed.

Lemma div_not_neg k r m :
  (r <? 0) = false -> sf_ge_exp k (Prim2SF m) -> (r / m <? 0) = false.
Proof.
  rewrite !not_neg_SF, div_spec. intros Hr Hm.
  apply sf_not_neg_cases in Hr.
  destruct (Prim2SF m) as [s|[|]| |[|] mm em]; cbn [sf_ge_exp] in Hm;
    try contradiction;
    destruct (Prim2SF r) as [[|]|[|]| |[|] mr er]; try contradiction;
    try reflexivity.
  unfold sf_not_neg, SF64div, SFdiv. cbn [xorb].
  destruct (SFdiv_core_binary prec emax (Zpos mr) er (Zpos mm) em) as [[mz ez] lz].
  apply binary_round_aux_not_neg.
Qed.

Lemma one_add_not_neg q : (q <? 0) = false -> (1 + q <? 0) = false.
Proof.
  rewrite !not_neg_SF, add_spec, Prim2SF_one. intros Hq.
  apply sf_not_neg_cases in Hq.
  destruct (Prim2SF q) as [[|]|[|]| |[|] mq eq]; try contradiction;
    try reflexivity.
  unfold SF64add, SFadd, SF1. cbv zeta. cbn [cond_Zopp Z.add binary_normalize].
  apply binary_round_not_neg.
Qed.

Lemma is_integer_two : PyFloat.is_integer 2 = true.
Proof. vm_compute. reflexivity. Qed.

Lemma is_odd_integer_two : PyFloat.is_odd_integer 2 = false.
Proof. vm_compute. reflexivity. Qed.

Section Probability.

Context {L : PyFloat.Libm}.

Lemma pow_outcome x y : (x <? 0) = false -> is_float_outcome (PyFloat.pow x y).
Proof.
  intros H. unfold PyFloat.pow. rewrite H. cbn [andb].
  repeat match goal with
         | |- is_float_outcome (if ?b then _ else _) => destruct b
         | |- is_float_outcome (let _ := _ in _) => cbv zeta
         end; exact I.
Qed.

Lemma abs_value_pos z :
  is_nan z = false -> (z =? 0) = false ->
  (0 <? (if z <? 0 then - z else z)) = true.
Proof.
  unfold is_nan. rewrite !eqb_spec. intros Hn H0.
  destruct (z <? 0) eqn:Hl; rewrite ltb_spec in Hl; rewrite ltb_spec;
    rewrite ?opp_spec;
    destruct (Prim2SF z) as [[|]|[|]| |[|] m e]; try discriminate;
    reflexivity.
Qed.

Lemma pow_two z :
  is_finite z = true ->
  PyFloat.pow z 2 = Raise OverflowError \/
  exists r, PyFloat.pow z 2 = Ret r /\ (r <? 0) = false.
Proof.
  intros Hz. destruct (is_finite_tests z Hz) as [Hn Hi].
  unfold PyFloat.pow. rewrite Hn, Hi, is_integer_two, is_odd_integer_two.
  change (2 =? 0) with false. change (is_nan 2) with false.
  change (is_infinity 2) with false. cbv zeta. cbn [negb andb].
  rewrite !andb_false_r.
  destruct (z =? 0) eqn:H0; [right; exists 0; split; reflexivity|].
  destruct (_ =? 1); [right; exists 1; split; reflexivity|].
  destruct (is_infinity (PyFloat.libm_pow _ _)); [left; reflexivity|right].
  eexists; split; [reflexivity|].
  apply PyFloat.libm_pow_nonneg, abs_value_pos; assumption.
Qed.

Lemma gamma_function_ge_one alpha :
  sf_ge_exp (-52) (Prim2SF alpha) ->
  exists g, gamma_function alpha = Ret g /\ inf_or_nan g.
Proof.
  intros H. destruct (sub_one_ge alpha H) as [->|Hp].
  - exists infinity. split; [apply gamma_function_one|left; reflexivity].
  - exists nan. split; [apply gamma_function_gt_one, Hp|right; reflexivity].
Qed.

Lemma calculate_Km_nan m :
  sf_ge_exp (-51) (Prim2SF m) -> calculate_Km m = Ret nan.
Proof.
  intros H.
  assert (H2 : sf_ge_exp (-52) (Prim2SF (0.5 * m)))
    by (apply mul_half_ge; [lia|exact H]).
  assert (H1 : sf_ge_exp (-52) (Prim2SF (0.5 * m + 0.5)))
    by (apply add_half_ge; [lia|exact H2]).
  destruct (gamma_function_ge_one _ H1) as (n & Hn & Hin).
  destruct (gamma_function_ge_one _ H2) as (g & Hg & Hig).
  unfold calculate_Km, PyFloat.sqrt.
  rewrite Hn, (mul_pi_not_neg _ _ H), Hg. cbn [bind].
  rewrite (mul_inf_or_nan_not_zero _ _ Hig).
  rewrite truediv_nonzero by (apply mul_inf_or_nan_not_zero, Hig).
  now rewrite (div_inf_or_nan _ _ _ Hin Hig).
Qed.

Lemma pow_neg_infinity_two : PyFloat.pow neg_infinity 2 = Ret infinity.
Proof. vm_compute. reflexivity. Qed.

Lemma pow_nan_two : PyFloat.pow nan 2 = Ret nan.
Proof. vm_compute. reflexivity. Qed.

Lemma truediv_two x : PyFloat.truediv x 2 = Ret (x / 2).
Proof. reflexivity. Qed.

(** The exponent [(m + 1) / 2] of the integrand, for [m >= 2]. *)
Lemma exponent_ge_one m :
  sf_ge_exp (-51) (Prim2SF m) -> sf_ge_exp (-52) (Prim2SF ((m + 1) / 2)).
Proof.
  intros H. apply div_two_ge; [lia|]. apply add_one_ge; [lia|exact H].
Qed.

Lemma div_infinity_ge k m :
  sf_ge_exp k (Prim2SF m) -> inf_or_nan (infinity / m).
Proof.
  intros H. unfold inf_or_nan.
  destruct (Prim2SF m) as [s|[|]| |[|] mm em] eqn:Hm; cbn [sf_ge_exp] in H;
    try contradiction.
  - right. apply float_of_SF. rewrite div_spec, Hm. reflexivity.
  - left. apply float_of_SF. rewrite div_spec, Hm. reflexivity.
Qed.

Lemma integrand_neg_infinity m :
  sf_ge_exp (-51) (Prim2SF m) ->
  exists v, integrand neg_infinity m = Ret v.
Proof.
  intros H. destruct (ge_exp_tests _ _ H) as (H0 & _).
  pose proof (exponent_ge_one m H) as He.
  unfold integrand. rewrite pow_neg_infinity_two. cbn [bind].
  rewrite (truediv_nonzero _ _ H0), truediv_two. cbn [bind].
  destruct (div_infinity_ge _ _ H) as [-> | ->].
  - exists infinity. change (1 + infinity) with infinity.
    apply pow_inf_pos. unfold positive_float.
    apply (sf_ge_exp_weaken (-52)); [lia|exact He].
  - exists nan. change (1 + nan) with nan.
    apply pow_nan. now destruct (ge_exp_tests _ _ He).
Qed.

Lemma integrand_nan m :
  sf_ge_exp (-51) (Prim2SF m) -> integrand nan m = Ret nan.
Proof.
  intros H. destruct (ge_exp_tests _ _ H) as (H0 & _).
  pose proof (exponent_ge_one m H) as He.
  unfold integrand. rewrite pow_nan_two. cbn [bind].
  rewrite (truediv_nonzero _ _ H0), truediv_two, div_nan_l. cbn [bind].
  change (1 + nan) with nan.
  apply pow_nan. now destruct (ge_exp_tests _ _ He).
Qed.

Lemma integrand_finite z m :
  is_finite z = true -> sf_ge_exp (-51) (Prim2SF m) ->
  is_float_outcome (integrand z m).
Proof.
  intros Hz H. destruct (ge_exp_tests _ _ H) as (H0 & _).
  unfold integrand.
  destruct (pow_two z Hz) as [-> | (r & -> & Hr)]; [exact I|].
  cbn [bind]. rewrite (truediv_nonzero _ _ H0), truediv_two. cbn [bind].
  apply pow_outcome, one_add_not_neg, (div_not_neg (-51)); assumption.
Qed.

End Probability.

Lemma calculate_probability_samples :
  forallb (sample_is neg_infinity infinity nan) (py_range 1 1000) = true.
Proof. vm_compute. reflexivity. Qed.

Section Integral.

Context {L : PyFloat.Libm}.

Lemma calculate_probability_integrate_unfold m z :
  is_finite z = true ->
  calculate_probability_integrate m neg_infinity z 1000 =
    (fa <- integrand neg_infinity m ;;
     fb <- integrand z m ;;
     sum_area <- for_each (py_range 1 1000) (0.5 * (fa + fb))
       (fun i sum_area =>
          i' <- PyFloat.of_int i ;;
          v <- integrand (neg_infinity + i' * infinity) m ;;
          Ret (sum_area + v)) ;;
     Ret (infinity * sum_area)).
Proof.
  intros Hz. unfold calculate_probability_integrate.
  rewrite (sub_neg_infinity z Hz). reflexivity.
Qed.

Lemma calculate_probability_integrate_outcome m z :
  is_finite z = true -> sf_ge_exp (-51) (Prim2SF m) ->
  calculate_probability_integrate m neg_infinity z 1000 = Ret nan \/
  exists e, calculate_probability_integrate m neg_infinity z 1000 = Raise e.
Proof.
  intros Hz H. rewrite (calculate_probability_integrate_unfold m z Hz).
  destruct (integrand_neg_infinity m H) as (va & ->). cbn [bind].
  pose proof (integrand_finite z m Hz H) as Hb.
  destruct (integrand z m) as [vb|e|]; [|right; exists e; reflexivity|contradiction].
  left. cbn [bind].
  pose proof (for_each_sample_nan (fun u => integrand u m) neg_infinity infinity nan
                (py_range 1 1000) (0.5 * (va + vb)) calculate_probability_samples
                (integrand_nan m H)) as Hloop.
  cbv beta in Hloop. rewrite Hloop. reflexivity.
Qed.

Lemma calculate_probability_nan df z :
  (4 <=? df) = true -> is_finite z = true ->
  calculate_probability df z = Ret nan.
Proof.
  intros Hdf Hz.
  assert (Hm : sf_ge_exp (-51) (Prim2SF (df / 2)))
    by (apply div_two_ge; [lia|apply leb_four, Hdf]).
  unfold calculate_probability. rewrite truediv_two. cbn [bind].
  rewrite (calculate_Km_nan _ Hm). cbn [bind].
  unfold calculate_probability_from. change (nan =? infinity) with false.
  destruct (calculate_probability_integrate_outcome (df / 2) z Hz Hm)
    as [-> | (e & ->)]; reflexivity.
Qed.

End Integral.

Lemma mul_self_not_neg r : (r * r <? 0) = false.
Proof.
  rewrite ltb_spec, mul_spec.
  destruct (Prim2SF r) as [[|]|[|]| |[|] m e]; try reflexivity;
    apply binary_round_aux_not_neg.
Qed.

Lemma square_n_not_neg n y : (RefLibm.square_n (S n) y <? 0) = false.
Proof.
  revert y. induction n as [|n IH]; intros y.
  - apply mul_self_not_neg.
  - exact (IH (y * y)).
Qed.

Lemma ref_pow_nonneg x y :
  (0 <? x) = true -> (RefLibm.pow x y <? 0) = false.
Proof.
  intros _. unfold RefLibm.pow, RefLibm.exp.
  destruct (710 <? _); [reflexivity|].
  destruct (_ <? -746); [reflexivity|].
  apply square_n_not_neg.
Qed.

(** The platform library built from [RefLibm]. *)
Definition reference_libm : PyFloat.Libm := {|
  PyFloat.libm_pow := RefLibm.pow;
  PyFloat.libm_exp := RefLibm.exp;
  PyFloat.libm_pow_nonneg := ref_pow_nonneg
|}.

(** [float(N)] for an [int] [N >= 1] is positive. *)
Lemma of_int_pos N n :
  (1 <= N)%Z -> PyFloat.of_int N = Ret n -> positive_float n.
Proof.
  intros HN H. destruct N as [|p|p]; try lia.
  unfold PyFloat.of_int in H. cbn [binary_normalize] in H.
  destruct (binary_round_spec false p 0) as (m' & e' & He' & Hc & Hr).
  { pose proof (Pos2Z.is_pos (digits2_pos p)). lia. }
  rewrite Hr in H. destruct (e' <=? emax - prec)%Z eqn:Hle.
  - assert (V : valid_binary (S754_finite false m' e') = true).
    { cbn [SpecFloat.valid_binary]. unfold bounded, canonical_mantissa.
      rewrite Hle, andb_true_r. apply Z.eqb_eq, Hc. }
    pose proof (Prim2SF_SF2Prim _ V) as HP.
    assert (Hi : is_infinity (SF2Prim (S754_finite false m' e')) = false).
    { unfold is_infinity. rewrite eqb_spec, abs_spec. rewrite HP. reflexivity. }
    cbv zeta in H. rewrite Hi in H. injection H as Hn. subst n.
    assert (G : sf_ge_exp (-1074) (S754_finite false m' e'))
      by (cbn [sf_ge_exp]; rewrite fexp_eq in Hc; lia).
    rewrite <- HP in G. exact G.
  - cbn [SF2Prim] in H. cbv zeta in H.
    change (is_infinity infinity) with true in H. discriminate H.
Qed.

Lemma in_py_range lo hi i : In i (py_range lo hi) -> (lo <= i < hi)%Z.
Proof.
  unfold py_range. rewrite in_map_iff. intros (k & <- & Hk).
  apply in_seq in Hk. lia.
Qed.

Lemma for_each_samples f a h xs acc (v : Z -> float) :
  (forall i, In i xs -> sample f a h i = Ret (v i)) ->
  for_each xs acc (fun i sum_area =>
      i' <- PyFloat.of_int i ;;
      x <- f (a + i' * h) ;;
      Ret (sum_area + x))
  = Ret (fold_left add (map v xs) acc).
Proof.
  revert acc. induction xs as [|i xs IH]; intros acc Hv.
  - reflexivity.
  - cbn [for_each map fold_left].
    pose proof (Hv i (or_introl eq_refl)) as Hi. unfold sample in Hi.
    destruct (PyFloat.of_int i) as [i'| |]; try discriminate Hi.
    cbn [bind] in *. rewrite Hi. cbn [bind].
    apply IH. intros j Hj. apply Hv. now right.
Qed.

Lemma integrate_with_trapezoidal f a b N n fa fb (v : Z -> float) :
  (1 <= N)%Z ->
  PyFloat.of_int N = Ret n ->
  f a = Ret fa ->
  f b = Ret fb ->
  (forall i, (1 <= i < N)%Z -> sample f a ((b - a) / n) i = Ret (v i)) ->
  integrate_with f a b N =
    Ret (integrate_value ((b - a) / n) fa fb (map v (py_range 1 N))).
Proof.
  intros HN Hn Hfa Hfb Hv. unfold integrate_with, integrate_value.
  destruct (positive_float_tests n (of_int_pos N n HN Hn)) as (H0 & _).
  rewrite Hn. cbn [bind]. rewrite (truediv_nonzero _ _ H0). cbn [bind].
  rewrite Hfa, Hfb. cbn [bind].
  rewrite (for_each_samples f a ((b - a) / n) (py_range 1 N) _ v).
  - reflexivity.
  - intros i Hi. apply Hv, in_py_range, Hi.
Qed.

Lemma ltb_zero_positive m : (0 <? m) = true -> positive_float m.
Proof.
  unfold positive_float. rewrite ltb_spec.
  change (Prim2SF 0) with (S754_zero false).
  destruct (Prim2SF m) as [s|[|]| |[|] mm e] eqn:Hm; try discriminate; intros _.
  - exact I.
  - cbn [sf_ge_exp]. destruct (bounded_spec mm e (valid_finite m false mm e Hm)). lia.
Qed.

Lemma compare_one_cases x :
  is_finite x = true -> (x <? 1) = true \/ (x =? 1) = true \/ (1 <? x) = true.
Proof.
  unfold is_finite, is_nan, is_infinity.
  rewrite !ltb_spec, !eqb_spec, abs_spec, Prim2SF_one.
  unfold SFltb, SFeqb, SFcompare, SF1.
  destruct (Prim2SF x) as [[|]|[|]| |[|] m e]; try discriminate; auto.
  intros _. rewrite (Z.compare_antisym e (-52)).
  destruct (e ?= -52)%Z; cbn [CompOpp]; auto.
  rewrite (ZC4 4503599627370496 m).
  destruct (Pos.compare_cont Eq m 4503599627370496); cbn [CompOpp]; auto.
Qed.

(** ** Every float: the non-finite arguments *)

Lemma not_finite_cases x :
  is_finite x = false -> x = infinity \/ x = neg_infinity \/ x = nan.
Proof.
  unfold is_finite, is_nan, is_infinity. rewrite !eqb_spec, abs_spec.
  intros H.
  destruct (Prim2SF x) as [[|]|[|]| |[|] m e] eqn:Hx; cbn [SFabs] in H;
    rewrite ?SFeqb_finite_refl in H; try discriminate H.
  - right; left. apply float_of_SF. rewrite Hx. reflexivity.
  - left. apply float_of_SF. rewrite Hx. reflexivity.
  - right; right. apply float_of_SF. rewrite Hx. reflexivity.
Qed.

Lemma ltb_zero_cases m :
  (m <? 0) = true ->
  Prim2SF m = S754_infinity true \/ exists mm e, Prim2SF m = S754_finite true mm e.
Proof.
  rewrite ltb_spec. change (Prim2SF 0) with (S754_zero false).
  destruct (Prim2SF m) as [[|]|[|]| |[|] mm e]; try discriminate; eauto.
Qed.

Lemma eqb_zero_cases m : (m =? 0) = true -> exists s, Prim2SF m = S754_zero s.
Proof.
  rewrite eqb_spec. change (Prim2SF 0) with (S754_zero false).
  destruct (Prim2SF m) as [s|[|]| |[|] mm e]; try discriminate; eauto.
Qed.

(** A float that is neither negative nor zero: positive, [+inf] or [nan]. *)
Lemma pos_or_nan_cases m :
  (m <? 0) = false -> (m =? 0) = false ->
  match Prim2SF m with
  | S754_finite false _ _ | S754_infinity false | S754_nan => True
  | _ => False
  end.
Proof.
  rewrite ltb_spec, eqb_spec. change (Prim2SF 0) with (S754_zero false).
  destruct (Prim2SF m) as [[|]|[|]| |[|] mm e]; try discriminate; auto.
Qed.

Section Rounding2.

Local Open Scope Z_scope.

(** A product of a negative finite float and [math.pi] is negative: it does
    not round to zero. *)
Lemma SFmul_pi_neg mm e :
  bounded prec emax mm e = true ->
  SFltb (SF64mul (S754_finite true mm e) (Prim2SF PyFloat.pi)) (S754_zero false)
  = true.
Proof.
  intros Hb. destruct (bounded_spec mm e Hb) as [Hc He].
  change (Prim2SF PyFloat.pi) with (S754_finite false 7074237752028440 (-51)).
  unfold SF64mul, SFmul. cbn [xorb].
  assert (Hd : 53 <= Zpos (digits2_pos (mm * 7074237752028440))).
  { apply (digits_ge _ 52); [lia|]. rewrite Pos2Z.inj_mul.
    change (2 ^ 52) with 4503599627370496. lia. }
  destruct (binary_round_aux_spec true (mm * 7074237752028440) (e + -51) loc_Exact)
    as (m' & e' & _ & _ & Hr).
  { rewrite fexp_eq. lia. }
  rewrite Hr. destruct (e' <=? emax - prec); reflexivity.
Qed.

End Rounding2.

Lemma mul_pi_neg m : (m <? 0) = true -> (m * PyFloat.pi <? 0) = true.
Proof.
  intros H. rewrite ltb_spec, mul_spec.
  change (Prim2SF 0) with (S754_zero false).
  destruct (ltb_zero_cases m H) as [Hm|(mm & e & Hm)]; rewrite Hm.
  - reflexivity.
  - apply SFmul_pi_neg. exact (valid_finite m true mm e Hm).
Qed.

Lemma half_of_zero m : (m =? 0) = true -> 0.5 * m + 0.5 = 0.5.
Proof.
  intros H. destruct (eqb_zero_cases m H) as (s & Hm).
  apply float_of_SF. rewrite add_spec, mul_spec, Hm.
  destruct s; reflexivity.
Qed.

(** ** [gamma_function] and [calculate_Km] on every float *)

Section Total.

Context {L : PyFloat.Libm}.

Lemma gamma_function_infinity : gamma_function infinity = Ret nan.
Proof. vm_compute. reflexivity. Qed.

Lemma gamma_function_neg_infinity : gamma_function neg_infinity = Ret infinity.
Proof. vm_compute. reflexivity. Qed.

Lemma gamma_function_of_nan : gamma_function nan = Ret nan.
Proof. vm_compute. reflexivity. Qed.

Lemma gamma_function_half : gamma_function 0.5 = Raise ZeroDivisionError.
Proof. vm_compute. reflexivity. Qed.

Lemma gamma_function_cases alpha :
  gamma_function alpha = Raise ZeroDivisionError \/
  gamma_function alpha = Ret infinity \/
  gamma_function alpha = Ret nan.
Proof.
  destruct (is_finite alpha) eqn:Hf.
  - destruct (compare_one_cases alpha Hf) as [H|[H|H]].
    + left. apply gamma_function_lt_one, sub_one_lt; assumption.
    + right; left. rewrite (eqb_one alpha H). apply gamma_function_one.
    + right; right. apply gamma_function_gt_one, sub_one_gt; assumption.
  - destruct (not_finite_cases alpha Hf) as [-> | [-> | ->]].
    + right; right. apply gamma_function_infinity.
    + right; left. apply gamma_function_neg_infinity.
    + right; right. apply gamma_function_of_nan.
Qed.

Lemma gamma_function_returns alpha g :
  gamma_function alpha = Ret g -> inf_or_nan g.
Proof.
  intros H. destruct (gamma_function_cases alpha) as [H'|[H'|H']];
    rewrite H' in H; try discriminate H; injection H as <-;
    [left|right]; reflexivity.
Qed.

Lemma calculate_Km_cases m :
  calculate_Km m = Ret nan \/
  calculate_Km m = Raise ZeroDivisionError \/
  calculate_Km m = Raise ValueError.
Proof.
  unfold calculate_Km, PyFloat.sqrt.
  destruct (gamma_function (0.5 * m + 0.5)) as [n|e|] eqn:Hn.
  - pose proof (gamma_function_returns _ _ Hn) as Hin. cbn [bind].
    destruct (m * PyFloat.pi <? 0); [right; right; reflexivity|]. cbn [bind].
    destruct (gamma_function (0.5 * m)) as [g|e|] eqn:Hg.
    + pose proof (gamma_function_returns _ _ Hg) as Hig. cbn [bind].
      rewrite (mul_inf_or_nan_not_zero _ _ Hig).
      rewrite truediv_nonzero by (apply mul_inf_or_nan_not_zero, Hig).
      left. now rewrite (div_inf_or_nan _ _ _ Hin Hig).
    + destruct (gamma_function_cases (0.5 * m)) as [H'|[H'|H']];
        rewrite H' in Hg; try discriminate Hg. injection Hg as <-.
      right; left. reflexivity.
    + destruct (gamma_function_cases (0.5 * m)) as [H'|[H'|H']];
        rewrite H' in Hg; discriminate Hg.
  - destruct (gamma_function_cases (0.5 * m + 0.5)) as [H'|[H'|H']];
      rewrite H' in Hn; try discriminate Hn. injection Hn as <-.
    right; left. reflexivity.
  - destruct (gamma_function_cases (0.5 * m + 0.5)) as [H'|[H'|H']];
      rewrite H' in Hn; discriminate Hn.
Qed.

(** When [calculate_Km m] returns, [m] is neither negative (the square root
    would raise) nor zero ([gamma_function(0.5)] would raise). *)
Lemma calculate_Km_returns m Km :
  calculate_Km m = Ret Km ->
  Km = nan /\ (m <? 0) = false /\ (m =? 0) = false.
Proof.
  intros H. split.
  - destruct (calculate_Km_cases m) as [H'|[H'|H']]; rewrite H' in H;
      try discriminate H. now injection H as <-.
  - unfold calculate_Km, PyFloat.sqrt in H.
    destruct (m <? 0) eqn:Hl.
    + rewrite (mul_pi_neg m Hl) in H.
      destruct (gamma_function (0.5 * m + 0.5)); discriminate H.
    + split; [reflexivity|]. destruct (m =? 0) eqn:H0; [|reflexivity].
      rewrite (half_of_zero m H0), gamma_function_half in H. discriminate H.
Qed.

End Total.

(** ** The CDF integrand and integral on every argument *)

Lemma div_not_neg_any r m :
  (r <? 0) = false -> (m <? 0) = false -> (m =? 0) = false ->
  (r / m <? 0) = false.
Proof.
  intros Hr Hl H0. pose proof (pos_or_nan_cases m Hl H0) as Hm.
  apply not_neg_SF in Hr. apply sf_not_neg_cases in Hr.
  rewrite ltb_spec, div_spec. change (Prim2SF 0) with (S754_zero false).
  destruct (Prim2SF m) as [[|]|[|]| |[|] mm em]; try contradiction;
    destruct (Prim2SF r) as [[|]|[|]| |[|] mr er]; try contradiction;
    try reflexivity.
  unfold SF64div, SFdiv. cbn [xorb].
  destruct (SFdiv_core_binary prec emax (Zpos mr) er (Zpos mm) em) as [[mz ez] lz].
  apply binary_round_aux_not_neg.
Qed.

(** [1 + q] for a [q] that is not negative: at least [1], or [nan]. *)
Lemma one_add_nonzero q : (q <? 0) = false -> (1 + q =? 0) = false.
Proof.
  intros Hq. apply not_neg_SF in Hq. apply sf_not_neg_cases in Hq.
  rewrite eqb_spec, add_spec, Prim2SF_one.
  change (Prim2SF 0) with (S754_zero false).
  destruct (Prim2SF q) as [[|]|[|]| |[|] mq eq] eqn:E; try contradiction;
    try reflexivity.
  pose proof (valid_finite q false mq eq E) as Hb.
  destruct (bounded_spec mq eq Hb) as [Hc _].
  assert (H : sf_ge_exp (-52) (SF64add SF1 (S754_finite false mq eq))).
  { apply SFadd_pos_ge; [reflexivity|lia|lia]. }
  destruct (SF64add SF1 (S754_finite false mq eq)) as [s|[|]| |[|] m e];
    cbn [sf_ge_exp] in H; try contradiction; reflexivity.
Qed.

Section Outcomes.

Context {L : PyFloat.Libm}.

Lemma pow_two_any u :
  PyFloat.pow u 2 = Raise OverflowError \/
  exists r, PyFloat.pow u 2 = Ret r /\ (r <? 0) = false.
Proof.
  destruct (is_finite u) eqn:Hf; [apply pow_two, Hf|right].
  destruct (not_finite_cases u Hf) as [-> | [-> | ->]].
  - exists infinity. split; vm_compute; reflexivity.
  - exists infinity. split; vm_compute; reflexivity.
  - exists nan. split; vm_compute; reflexivity.
Qed.

(** A power of a base that is neither negative nor zero is a float, or
    overflows. *)
Lemma pow_raises_only x y :
  (x <? 0) = false -> (x =? 0) = false ->
  raises_only (eq OverflowError) (PyFloat.pow x y).
Proof.
  intros H H0. unfold PyFloat.pow. rewrite H, H0. cbn [andb].
  repeat match goal with
         | |- raises_only _ (if ?b then _ else _) => destruct b
         | |- raises_only _ (let _ := _ in _) => cbv zeta
         end; cbn [raises_only]; auto.
Qed.

Lemma integrand_raises_only u m :
  (m <? 0) = false -> (m =? 0) = false ->
  raises_only (eq OverflowError) (integrand u m).
Proof.
  intros Hl H0. unfold integrand.
  destruct (pow_two_any u) as [-> | (r & -> & Hr)]; [reflexivity|].
  cbn [bind]. rewrite (truediv_nonzero _ _ H0), truediv_two. cbn [bind].
  pose proof (div_not_neg_any r m Hr Hl H0) as Hq.
  apply pow_raises_only; [apply one_add_not_neg|apply one_add_nonzero]; exact Hq.
Qed.

Lemma raises_only_bind {A B} (P : exn -> Prop) (r : result A) (k : A -> result B) :
  raises_only P r -> (forall a, raises_only P (k a)) ->
  raises_only P (bind r k).
Proof. destruct r; cbn; auto. Qed.

Lemma raises_only_weaken {A} (P Q : exn -> Prop) (r : result A) :
  (forall e, P e -> Q e) -> raises_only P r -> raises_only Q r.
Proof. destruct r; cbn; auto. Qed.

Lemma of_int_raises_only n : raises_only (eq OverflowError) (PyFloat.of_int n).
Proof.
  unfold PyFloat.of_int. cbv zeta. destruct (is_infinity _); cbn; auto.
Qed.

Lemma for_each_raises_only (P : exn -> Prop) xs acc body :
  (forall i s, raises_only P (body i s)) ->
  raises_only P (for_each xs acc body).
Proof.
  intros Hb. revert acc. induction xs as [|i xs IH]; intros acc.
  - exact I.
  - cbn [for_each]. apply raises_only_bind; [apply Hb|exact IH].
Qed.

Lemma integrate_raises_only m a b N n :
  (m <? 0) = false -> (m =? 0) = false ->
  PyFloat.of_int N = Ret n -> (n =? 0) = false ->
  raises_only (eq OverflowError) (calculate_probability_integrate m a b N).
Proof.
  intros Hl H0 Hn Hn0. unfold calculate_probability_integrate.
  rewrite Hn. cbn [bind]. rewrite (truediv_nonzero _ _ Hn0). cbn [bind].
  apply raises_only_bind; [apply integrand_raises_only; assumption|intros fa].
  apply raises_only_bind; [apply integrand_raises_only; assumption|intros fb].
  apply raises_only_bind; [|intros s; exact I].
  apply for_each_raises_only. intros i s.
  apply raises_only_bind; [apply of_int_raises_only|intros i'].
  apply raises_only_bind; [apply integrand_raises_only; assumption|intros v].
  exact I.
Qed.

Lemma of_int_1000 : PyFloat.of_int 1000 = Ret 1000.
Proof. reflexivity. Qed.

Lemma calculate_probability_any_z m z :
  (m <? 0) = false -> (m =? 0) = false ->
  calculate_probability_from nan
    (fun _ => calculate_probability_integrate m neg_infinity z 1000) = Ret nan.
Proof.
  intros Hl H0. unfold calculate_probability_from.
  change (nan =? infinity) with false. cbv iota.
  pose proof (integrate_raises_only m neg_infinity z 1000 1000 Hl H0
                of_int_1000 eq_refl) as H.
  destruct (calculate_probability_integrate m neg_infinity z 1000);
    [|reflexivity|contradiction].
  cbn [bind try_except]. now rewrite mul_nan_l.
Qed.

Lemma calculate_probability_cases df z :
  calculate_probability df z = Ret nan \/
  calculate_probability df z = Raise ZeroDivisionError \/
  calculate_probability df z = Raise ValueError.
Proof.
  unfold calculate_probability. rewrite truediv_two. cbn [bind].
  destruct (calculate_Km (df / 2)) as [Km|e|] eqn:HK.
  - destruct (calculate_Km_returns _ _ HK) as (-> & Hl & H0). cbn [bind].
    left. apply calculate_probability_any_z; assumption.
  - destruct (calculate_Km_cases (df / 2)) as [H'|[H'|H']];
      rewrite H' in HK; try discriminate HK; injection HK as <-;
      [right; left|right; right]; reflexivity.
  - destruct (calculate_Km_cases (df / 2)) as [H'|[H'|H']];
      rewrite H' in HK; discriminate HK.
Qed.

Lemma calculate_probability_nan_any_z df z :
  (4 <=? df) = true -> calculate_probability df z = Ret nan.
Proof.
  intros Hdf.
  assert (Hm : sf_ge_exp (-51) (Prim2SF (df / 2)))
    by (apply div_two_ge; [lia|apply leb_four, Hdf]).
  destruct (ge_exp_tests _ _ Hm) as (H0 & _ & _ & Hl).
  unfold calculate_probability. rewrite truediv_two. cbn [bind].
  rewrite (calculate_Km_nan _ Hm). cbn [bind].
  apply calculate_probability_any_z; assumption.
Qed.

End Outcomes.

(** ** Half of a float below 2, and an [int] halved *)

Section Halves.

Local Open Scope Z_scope.

(** Half of a positive float below [2] is zero or a positive float below
    [1]: the product does not round up to [1]. *)
Lemma SFmul_half_lt m e :
  bounded prec emax m e = true ->
  SFltb (S754_finite false m e) SF2 = true ->
  SF64mul SFhalf (S754_finite false m e) = S754_zero false \/
  exists m' e', SF64mul SFhalf (S754_finite false m e) = S754_finite false m' e' /\
                e' < -52.
Proof.
  intros Hb Hlt. destruct (bounded_spec m e Hb) as [Hc He].
  assert (Hle : e <= -52).
  { unfold SFltb, SFcompare, SF2 in Hlt.
    destruct (Z.compare_spec e (-51)) as [E|E|E]; try discriminate Hlt; [|lia].
    destruct (Pos.compare_cont Eq m 4503599627370496) eqn:Hm; try discriminate Hlt.
    apply Pos.compare_lt_iff, Pos2Z.pos_lt_pos in Hm.
    destruct (mantissa_normal m e Hb ltac:(lia)) as [_ H].
    change (2 ^ 52) with 4503599627370496 in H. lia. }
  unfold SF64mul, SFmul, SFhalf. cbn [xorb].
  assert (Hdp : Zpos (digits2_pos (4503599627370496 * m)) =
                Zpos (digits2_pos m) + 52).
  { apply Zdigits_mul_pow2; [lia|].
    rewrite Pos2Z.inj_mul. change (2 ^ 52) with 4503599627370496. lia. }
  pose proof (Pos2Z.is_pos (digits2_pos m)) as Hpos.
  destruct (Z.eq_dec e (-52)) as [E52|E52].
  - (* 1 <= m < 2: the product is exact *)
    subst e. destruct (mantissa_normal m (-52) Hb ltac:(lia)) as [Hd _].
    destruct (binary_round_aux_trunc false (4503599627370496 * m) (-53 + -52))
      as (m' & Hm' & Hr).
    + rewrite Hdp, Hd, fexp_eq. lia.
    + rewrite Hdp, Hd, fexp_eq.
      replace (Z.max (53 + 52 + (-53 + -52) - 53) (-1074) - (-53 + -52) - 1)
        with 51 by lia.
      rewrite Z.shiftr_div_pow2 by lia. rewrite Pos2Z.inj_mul.
      replace (4503599627370496 * Zpos m) with (2 * Zpos m * 2 ^ 51)
        by (change (2 ^ 51) with 2251799813685248; lia).
      rewrite Z.div_mul by lia. rewrite Z.odd_mul. reflexivity.
    + right. rewrite Hdp, Hd, fexp_eq in Hr.
      replace (-53 + -52 + (Z.max (53 + 52 + (-53 + -52) - 53) (-1074) - (-53 + -52)))
        with (-53) in Hr by lia.
      exists m', (-53). split; [exact Hr|lia].
  - destruct (Z.eq_dec (Zpos (digits2_pos m) + e) (-1073)) as [Etiny|Etiny].
    + (* the smallest subnormal: its half rounds to zero *)
      assert (e = -1074) by lia. subst e.
      assert (Hd1 : Zpos (digits2_pos m) = 1) by lia.
      pose proof (digits_bounds m) as [_ Hm]. rewrite Hd1 in Hm.
      assert (m = 1%positive) by lia. subst m. left. reflexivity.
    + destruct (binary_round_aux_spec false (4503599627370496 * m) (-53 + e)
                  loc_Exact) as (m' & e' & He' & _ & Hr).
      * rewrite Hdp, fexp_eq. lia.
      * rewrite Hdp, fexp_eq in He'. right. exists m', e'.
        assert (He'52 : e' < -52) by lia. split; [|exact He'52].
        rewrite Hr. change (emax - prec) with 971.
        replace (e' <=? 971) with true; [reflexivity|].
        symmetry. apply Z.leb_le. lia.
Qed.

End Halves.

(** For [0 < m < 2], [0.5 * m] is a finite float below [1]. *)
Lemma half_lt_one m :
  (0 <? m) = true -> (m <? 2) = true ->
  is_finite (0.5 * m) = true /\ (0.5 * m <? 1) = true.
Proof.
  intros Hp Hlt. unfold is_finite, is_nan, is_infinity.
  rewrite !eqb_spec, abs_spec, !ltb_spec, mul_spec, Prim2SF_one in *.
  change (Prim2SF 0.5) with SFhalf. change (Prim2SF 2) with SF2 in Hlt.
  change (Prim2SF 0) with (S754_zero false) in Hp.
  destruct (Prim2SF m) as [s|[|]| |[|] mm e] eqn:Hm;
    try discriminate Hp; try discriminate Hlt.
  destruct (SFmul_half_lt mm e (valid_finite m false mm e Hm) Hlt)
    as [->|(m' & e' & -> & He')].
  - split; reflexivity.
  - cbn [SFabs]. rewrite SFeqb_finite_refl. split; [reflexivity|].
    unfold SFltb, SFcompare, SF1.
    destruct (Z.compare_spec e' (-52)); [lia|reflexivity|lia].
Qed.

Lemma leb_two x : (2 <=? x) = true -> sf_ge_exp (-51) (Prim2SF x).
Proof.
  rewrite leb_spec. change (Prim2SF 2) with SF2.
  unfold SFleb, SFcompare, SF2.
  destruct (Prim2SF x) as [s|[|]| |[|] m e]; cbn [sf_ge_exp]; try discriminate; auto.
  destruct (Z.compare_spec (-51) e); try discriminate; intros _; lia.
Qed.

(** [n / 2] for an [int] [n >= 4], when it is in the range of the floats, is
    at least [2]. *)
Lemma int_div_two_ge n m :
  (4 <= n)%Z -> PyFloat.int_div_two n = Ret m -> sf_ge_exp (-51) (Prim2SF m).
Proof.
  intros HN H. destruct n as [|p|p]; try lia.
  unfold PyFloat.int_div_two in H. cbn [binary_normalize] in H.
  assert (Hd : (3 <= Zpos (digits2_pos p))%Z)
    by (apply (digits_ge p 2); [lia|change (2 ^ 2)%Z with 4%Z; lia]).
  destruct (binary_round_spec false p (-1)) as (m' & e' & He' & Hc & Hr).
  { lia. }
  rewrite Hr in H. destruct (e' <=? emax - prec)%Z eqn:Hle.
  - assert (V : valid_binary (S754_finite false m' e') = true).
    { cbn [SpecFloat.valid_binary]. unfold bounded, canonical_mantissa.
      rewrite Hle, andb_true_r. apply Z.eqb_eq, Hc. }
    pose proof (Prim2SF_SF2Prim _ V) as HP.
    assert (Hi : is_infinity (SF2Prim (S754_finite false m' e')) = false).
    { unfold is_infinity. rewrite eqb_spec, abs_spec. rewrite HP. reflexivity. }
    cbv zeta in H. rewrite Hi in H. injection H as Hn. subst m.
    assert (G : sf_ge_exp (-51) (S754_finite false m' e'))
      by (cbn [sf_ge_exp]; rewrite fexp_eq in He'; lia).
    rewrite <- HP in G. exact G.
  - cbn [SF2Prim] in H. cbv zeta in H.
    change (is_infinity infinity) with true in H. discriminate H.
Qed.

Lemma int_div_two_main :
  PyFloat.int_div_two 7 = PyFloat.truediv 7 2 /\
  PyFloat.int_div_two 11 = PyFloat.truediv 11 2 /\
  PyFloat.int_div_two 15 = PyFloat.truediv 15 2.
Proof. split; [|split]; vm_compute; reflexivity. Qed.

(** ** [calculate_Km] for [m > 0], and [calculate_probability] on an [int] *)

Section Positive.

Context {L : PyFloat.Libm}.

Lemma calculate_Km_lt_two m :
  (0 <? m) = true -> (m <? 2) = true ->
  calculate_Km m = Raise ZeroDivisionError.
Proof.
  intros Hp Hlt. destruct (half_lt_one m Hp Hlt) as [Hf H1].
  assert (Hg : gamma_function (0.5 * m) = Raise ZeroDivisionError)
    by (apply gamma_function_lt_one, sub_one_lt; assumption).
  unfold calculate_Km, PyFloat.sqrt.
  destruct (gamma_function_cases (0.5 * m + 0.5)) as [-> | [-> | ->]];
    cbn [bind]; try reflexivity;
    rewrite (mul_pi_not_neg (-1074) m (ltb_zero_positive m Hp)); cbn [bind];
    rewrite Hg; reflexivity.
Qed.

Lemma calculate_Km_ge_two m :
  (2 <=? m) = true ->
  exists numerator g,
    gamma_function (0.5 * m + 0.5) = Ret numerator /\
    gamma_function (0.5 * m) = Ret g /\
    let denominator := PrimFloat.sqrt (m * PyFloat.pi) * g in
    (denominator =? 0) = false /\
    calculate_Km m = Ret (numerator / denominator) /\
    numerator / denominator = nan.
Proof.
  intros Hle. pose proof (leb_two m Hle) as H.
  assert (H2 : sf_ge_exp (-52) (Prim2SF (0.5 * m)))
    by (apply mul_half_ge; [lia|exact H]).
  assert (H1 : sf_ge_exp (-52) (Prim2SF (0.5 * m + 0.5)))
    by (apply add_half_ge; [lia|exact H2]).
  destruct (gamma_function_ge_one _ H1) as (n & Hn & Hin).
  destruct (gamma_function_ge_one _ H2) as (g & Hg & Hig).
  exists n, g. split; [exact Hn|]. split; [exact Hg|]. intros denominator.
  assert (Hd : (denominator =? 0) = false)
    by apply (mul_inf_or_nan_not_zero _ _ Hig).
  split; [exact Hd|]. split.
  - unfold calculate_Km, PyFloat.sqrt.
    rewrite Hn, (mul_pi_not_neg _ _ H), Hg. cbn [bind]. fold denominator.
    rewrite Hd. apply truediv_nonzero, Hd.
  - apply (div_inf_or_nan _ _ _ Hin Hig).
Qed.

Lemma calculate_probability_int_overflow n z :
  PyFloat.int_div_two n = Raise OverflowError ->
  calculate_probability_int n z = Raise OverflowError.
Proof. intros H. unfold calculate_probability_int. now rewrite H. Qed.

Lemma calculate_probability_int_nan_any_z n m z :
  (4 <= n)%Z -> PyFloat.int_div_two n = Ret m ->
  calculate_probability_int n z = Ret nan.
Proof.
  intros Hn Hm. pose proof (int_div_two_ge n m Hn Hm) as H.
  destruct (ge_exp_tests _ _ H) as (H0 & _ & _ & Hl).
  unfold calculate_probability_int. rewrite Hm. cbn [bind].
  rewrite (calculate_Km_nan _ H). cbn [bind].
  apply calculate_probability_any_z; assumption.
Qed.

(** An [int] of at least 4 whose half is the float [m], at a finite
    [z_value]: the constant is [nan], and the integral is [nan] or raises. *)
Lemma calculate_probability_int_from_four n m z :
  (4 <= n)%Z -> PyFloat.int_div_two n = Ret m -> is_finite z = true ->
  calculate_Km m = Ret nan /\
  (calculate_probability_integrate m neg_infinity z 1000 = Ret nan \/
   exists e, calculate_probability_integrate m neg_infinity z 1000 = Raise e) /\
  calculate_probability_int n z = Ret nan.
Proof.
  intros Hn Hm Hz. pose proof (int_div_two_ge n m Hn Hm) as H.
  split; [apply calculate_Km_nan, H|].
  split; [apply calculate_probability_integrate_outcome; assumption|].
  apply (calculate_probability_int_nan_any_z n m z Hn Hm).
Qed.

(** The degrees of freedom of [main] are [int]s whose halves are exact:
    [calculate_probability] on them is [calculate_probability] on the floats
    [7], [11] and [15]. *)
Lemma calculate_probability_int_main z :
  calculate_probability_int 7 z = calculate_probability 7 z /\
  calculate_probability_int 11 z = calculate_probability 11 z /\
  calculate_probability_int 15 z = calculate_probability 15 z.
Proof.
  destruct int_div_two_main as (H7 & H11 & H15).
  unfold calculate_probability_int, calculate_probability.
  rewrite H7, H11, H15. split; [|split]; reflexivity.
Qed.

End Positive.

(** * The claims of the specification *)

Section Claims.

Context {L : PyFloat.Libm}.

(** C1 (the source does not meet it).  The claim: the integrand of the CDF
    integral is the t-density kernel [(1 + u^2/m)^(-(m+1)/2)].  The source
    raises [1 + u^2/m] to the positive power [(m+1)/2]: at [u = 1], [m = 1]
    it computes [2.0 ** 1.0] where the kernel is [2.0 ** -1.0], and at
    [u = 1], [m = 2^-1074], where [1 + u^2/m] is [+inf], it returns [+inf]
    where the kernel is [0]. *)
Theorem integrand_exponent_sign :
  integrand 1 1 = PyFloat.pow 2 1 /\
  t_density_kernel 1 1 = PyFloat.pow 2 (-1) /\
  integrand 1 0x1p-1074 = Ret infinity /\
  t_density_kernel 1 0x1p-1074 = Ret 0.
Proof. split; [|split; [|split]]; vm_compute; reflexivity. Qed.

Lemma calculate_Km_one : calculate_Km 1 = Raise ZeroDivisionError.
Proof. vm_compute. reflexivity. Qed.

(** C2 (the source does not meet it).  The claim: [calculate_probability]
    never raises.  With 2 degrees of freedom, [calculate_Km(1.0)] evaluates
    [gamma_function(0.5)], whose integrand raises [ZeroDivisionError] at
    [t = 0]; the call stands before the [try], so the exception leaves
    [calculate_probability], whatever [z_value] is. *)
Theorem calculate_probability_raises z :
  calculate_probability 2 z = Raise ZeroDivisionError.
Proof.
  unfold calculate_probability. rewrite truediv_two. change (2 / 2) with 1.
  cbn [bind]. rewrite calculate_Km_one. reflexivity.
Qed.

(** C3 (the source does not meet it).  The claim: [gamma_function] never
    raises.  At [alpha = 0.5] the left end point evaluates [0 ** -0.5],
    which raises [ZeroDivisionError]. *)
Theorem gamma_function_raises : gamma_function 0.5 = Raise ZeroDivisionError.
Proof. vm_compute. reflexivity. Qed.

(** C4 (the source does not meet it).  The claim: [gamma_function] is close
    to [1], [1] and [24] at [1], [2] and [5].  With the upper bound
    [float('inf')] the step is infinite, and the source returns [+inf],
    [nan] and [nan]. *)
Theorem gamma_function_small_integers :
  gamma_function 1 = Ret infinity /\
  gamma_function 2 = Ret nan /\
  gamma_function 5 = Ret nan.
Proof. split; [|split]; vm_compute; reflexivity. Qed.

(** C5 (the source does not meet it).  The claim: for every [m > 0],
    [calculate_Km(m)] returns [+inf] or the quotient of the two Gamma
    values.  For every [0 < m < 2], and so at [m = 1],
    [gamma_function(0.5 * m)] raises [ZeroDivisionError] and [calculate_Km]
    returns nothing.  For every [m >= 2] the two calls return, the
    denominator is not zero, and [calculate_Km] returns the quotient, which
    is [nan]. *)
Theorem calculate_Km_positive :
  calculate_Km 1 = Raise ZeroDivisionError /\
  (forall m, (0 <? m) = true -> (m <? 2) = true ->
     calculate_Km m = Raise ZeroDivisionError) /\
  (forall m, (2 <=? m) = true ->
     exists numerator g,
       gamma_function (0.5 * m + 0.5) = Ret numerator /\
       gamma_function (0.5 * m) = Ret g /\
       let denominator := PrimFloat.sqrt (m * PyFloat.pi) * g in
       (denominator =? 0) = false /\
       calculate_Km m = Ret (numerator / denominator) /\
       numerator / denominator = nan).
Proof.
  split; [apply calculate_Km_lt_two; reflexivity|].
  split; [exact calculate_Km_lt_two|exact calculate_Km_ge_two].
Qed.

(** C6.  [calculate_probability] hands the value [Km] of
    [calculate_Km(degrees_of_freedom / 2)] and the CDF integral to
    [calculate_probability_from]; when [Km] is the [+inf] sentinel that
    returns [nan] whatever the integral would do, so the integral is not
    evaluated; hence [calculate_probability] returns [nan] whenever
    [calculate_Km] returns the sentinel. *)
Theorem calculate_probability_sentinel :
  (forall df z m Km,
      PyFloat.truediv df 2 = Ret m ->
      calculate_Km m = Ret Km ->
      calculate_probability df z =
        calculate_probability_from Km
          (fun _ => calculate_probability_integrate m neg_infinity z 1000)) /\
  (forall Km integral,
      (Km =? infinity) = true ->
      calculate_probability_from Km integral = Ret nan) /\
  (forall df z m,
      PyFloat.truediv df 2 = Ret m ->
      calculate_Km m = Ret infinity ->
      calculate_probability df z = Ret nan).
Proof.
  split; [|split].
  - intros df z m Km Hm HK. unfold calculate_probability.
    rewrite Hm. cbn [bind]. rewrite HK. reflexivity.
  - intros Km integral HK. unfold calculate_probability_from. now rewrite HK.
  - intros df z m Hm HK. unfold calculate_probability.
    rewrite Hm. cbn [bind]. rewrite HK. reflexivity.
Qed.

(** C7, as amended.  Each nested [integrate] is the composite trapezoidal
    rule in the floating-point grouping of the code.  For a sample count
    [N >= 1] and all bounds: when [float(N)] overflows, the routine raises
    [OverflowError]; when [N] converts to the float [n], with
    [h = (b - a) / n], and the integrand returns [fa] at [a], [fb] at [b]
    and [v i] at [a + i * h] for [1 <= i < N], the routine returns
    [h * ((0.5 * (fa + fb) + v 1) + ... + v (N - 1))]. *)
Theorem integrate_trapezoidal_rule a b N :
  (1 <= N)%Z ->
  (PyFloat.of_int N = Raise OverflowError ->
   (forall alpha, gamma_function_integrate alpha a b N = Raise OverflowError) /\
   (forall m, calculate_probability_integrate m a b N = Raise OverflowError)) /\
  (forall n fa fb (v : Z -> float),
      PyFloat.of_int N = Ret n ->
      let h := (b - a) / n in
      (forall alpha,
          gamma_function_integrand alpha a = Ret fa ->
          gamma_function_integrand alpha b = Ret fb ->
          (forall i, (1 <= i < N)%Z ->
                     sample (gamma_function_integrand alpha) a h i = Ret (v i)) ->
          gamma_function_integrate alpha a b N =
            Ret (integrate_value h fa fb (map v (py_range 1 N)))) /\
      (forall m,
          integrand a m = Ret fa ->
          integrand b m = Ret fb ->
          (forall i, (1 <= i < N)%Z ->
                     sample (fun u => integrand u m) a h i = Ret (v i)) ->
          calculate_probability_integrate m a b N =
            Ret (integrate_value h fa fb (map v (py_range 1 N))))).
Proof.
  intros HN. split.
  - intros Hn. split; intros x;
      [unfold gamma_function_integrate|unfold calculate_probability_integrate];
      rewrite Hn; reflexivity.
  - intros n fa fb v Hn h. split.
    + intros alpha Hfa Hfb Hv.
      exact (integrate_with_trapezoidal (gamma_function_integrand alpha)
               a b N n fa fb v HN Hn Hfa Hfb Hv).
    + intros m Hfa Hfb Hv.
      exact (integrate_with_trapezoidal (fun u => integrand u m)
               a b N n fa fb v HN Hn Hfa Hfb Hv).
Qed.

(** From 4 degrees of freedom on and at a finite [z_value]: the constant is
    [nan], and the integral is [nan] or raises. *)
Lemma calculate_probability_from_four df z :
  (4 <=? df) = true -> is_finite z = true ->
  PyFloat.truediv df 2 = Ret (df / 2) /\
  calculate_Km (df / 2) = Ret nan /\
  (nan =? infinity) = false /\
  (calculate_probability_integrate (df / 2) neg_infinity z 1000 = Ret nan \/
   exists e,
     calculate_probability_integrate (df / 2) neg_infinity z 1000 = Raise e) /\
  calculate_probability df z = Ret nan.
Proof.
  intros Hdf Hz.
  assert (Hm : sf_ge_exp (-51) (Prim2SF (df / 2)))
    by (apply div_two_ge; [lia|apply leb_four, Hdf]).
  split; [reflexivity|]. split; [apply calculate_Km_nan, Hm|].
  split; [reflexivity|].
  split; [apply calculate_probability_integrate_outcome; assumption|].
  apply calculate_probability_nan; assumption.
Qed.

(** C8 (the source does not meet it).  The claim: [calculate_probability]
    is non-decreasing in [z_value].  With 7 degrees of freedom it returns
    [nan] at [0] and at [3], and [nan <= nan] is false. *)
Theorem calculate_probability_not_monotone :
  calculate_probability 7 0 = Ret nan /\
  calculate_probability 7 3 = Ret nan /\
  (0 <=? 3) = true /\
  (nan <=? nan) = false.
Proof.
  split; [|split; [|split; reflexivity]];
    apply calculate_probability_nan; reflexivity.
Qed.

(** C9.  [gamma_function] never returns a finite value: for a finite
    [alpha] it raises [ZeroDivisionError] when [alpha < 1], returns [+inf]
    when [alpha = 1] and returns [nan] when [alpha > 1]. *)
Theorem gamma_function_never_finite alpha :
  is_finite alpha = true ->
  ((alpha <? 1) = true -> gamma_function alpha = Raise ZeroDivisionError) /\
  ((alpha =? 1) = true -> gamma_function alpha = Ret infinity) /\
  ((1 <? alpha) = true -> gamma_function alpha = Ret nan) /\
  (forall v, gamma_function alpha = Ret v -> is_finite v = false).
Proof.
  intros Hf.
  assert (H1 : (alpha <? 1) = true ->
               gamma_function alpha = Raise ZeroDivisionError)
    by (intros H; apply gamma_function_lt_one, sub_one_lt; assumption).
  assert (H2 : (alpha =? 1) = true -> gamma_function alpha = Ret infinity)
    by (intros H; rewrite (eqb_one alpha H); apply gamma_function_one).
  assert (H3 : (1 <? alpha) = true -> gamma_function alpha = Ret nan)
    by (intros H; apply gamma_function_gt_one, sub_one_gt; assumption).
  repeat split; try assumption.
  intros v Hv.
  destruct (compare_one_cases alpha Hf) as [H|[H|H]];
    [rewrite (H1 H) in Hv|rewrite (H2 H) in Hv|rewrite (H3 H) in Hv];
    try discriminate Hv; injection Hv as <-; reflexivity.
Qed.

(** C10, as amended.  At a finite [z_value], for every float
    [degrees_of_freedom >= 4], and for every [int]
    [degrees_of_freedom >= 4] whose half is in the range of the floats,
    [calculate_probability] returns [nan]: the constant [Km] is [nan], which
    is not the [+inf] sentinel, so the sentinel test is not taken; and the
    CDF integral from [-inf] evaluates to [nan] or raises an exception,
    which the handler turns into [nan].  For an [int] so large that
    [degrees_of_freedom / 2] overflows, the [OverflowError] of that
    division, which stands before the [try], leaves
    [calculate_probability]. *)
Theorem calculate_probability_ge_four z :
  is_finite z = true ->
  (forall df, (4 <=? df) = true ->
     PyFloat.truediv df 2 = Ret (df / 2) /\
     calculate_Km (df / 2) = Ret nan /\
     (nan =? infinity) = false /\
     (calculate_probability_integrate (df / 2) neg_infinity z 1000 = Ret nan \/
      exists e,
        calculate_probability_integrate (df / 2) neg_infinity z 1000 = Raise e) /\
     calculate_probability df z = Ret nan) /\
  (forall n m, (4 <= n)%Z -> PyFloat.int_div_two n = Ret m ->
     calculate_Km m = Ret nan /\
     (calculate_probability_integrate m neg_infinity z 1000 = Ret nan \/
      exists e, calculate_probability_integrate m neg_infinity z 1000 = Raise e) /\
     calculate_probability_int n z = Ret nan) /\
  (forall n, PyFloat.int_div_two n = Raise OverflowError ->
     calculate_probability_int n z = Raise OverflowError).
Proof.
  intros Hz. split; [|split].
  - intros df Hdf. apply calculate_probability_from_four; assumption.
  - intros n m Hn Hm. apply calculate_probability_int_from_four; assumption.
  - intros n. apply calculate_probability_int_overflow.
Qed.

End Claims.

(** ** The claims at concrete inputs, on the platform library [reference_libm] *)

(** C7 for [gamma_function(2)]'s integrand over [[0, 1]] with 4 intervals. *)
Lemma integrate_trapezoidal_rule_witness :
  let f := gamma_function_integrand (L := reference_libm) 2 in
  let h := (1 - 0) / 4 in
  PyFloat.of_int 4 = Ret 4 /\
  gamma_function_integrate (L := reference_libm) 2 0 1 4 =
    Ret (integrate_value h (returned (f 0)) (returned (f 1))
           (map (fun i => returned (sample f 0 h i)) (py_range 1 4))).
Proof.
  intros f h.
  assert (Hn : PyFloat.of_int 4 = Ret 4) by reflexivity.
  assert (Hfa : f 0 = Ret (returned (f 0))) by (vm_compute; reflexivity).
  assert (Hfb : f 1 = Ret (returned (f 1))) by (vm_compute; reflexivity).
  assert (Hv : forall i, (1 <= i < 4)%Z ->
                 sample f 0 h i = Ret (returned (sample f 0 h i))).
  { intros i Hi.
    assert (Hc : i = 1%Z \/ i = 2%Z \/ i = 3%Z) by lia.
    destruct Hc as [-> | [-> | ->]]; vm_compute; reflexivity. }
  split; [exact Hn|].
  exact (proj1 (proj2 (integrate_trapezoidal_rule (L := reference_libm) 0 1 4
                         ltac:(lia))
                  4 (returned (f 0)) (returned (f 1))
                  (fun i => returned (sample f 0 h i)) Hn)
           2 Hfa Hfb Hv).
Defined.

(** C7 as first stated fails in binary64.  With [m = 2000] and one interval
    over [[a, b] = [45.4296875, 45.4306640625]] the integrand is about
    [1.28 * 2^1023] at [a] and [1.31 * 2^1023] at [b]: the source adds the
    two before it halves them, the sum overflows, and [integrate] returns
    [+inf], where the stated formula [h * (0.5 * f(a) + 0.5 * f(b) + 0)] is
    finite. *)
Lemma integrate_differs_from_formula :
  let m := 2000 in
  let a := 0x1.6b7p+5 in
  let b := 0x1.6b72p+5 in
  let f := fun u => integrand (L := reference_libm) u m in
  (a <=? b) = true /\ is_finite a = true /\ is_finite b = true /\
  PyFloat.of_int 1 = Ret 1 /\
  is_finite (returned (f a)) = true /\ is_finite (returned (f b)) = true /\
  calculate_probability_integrate (L := reference_libm) m a b 1 = Ret infinity /\
  is_finite (trapezoidal_rule ((b - a) / 1) (returned (f a)) (returned (f b)) [])
  = true.
Proof.
  intros m a b f.
  split; [|split; [|split; [|split; [|split; [|split; [|split]]]]]];
    vm_compute; reflexivity.
Qed.

(** C9 at [alpha = 0.5], [1] and [2.5]. *)
Lemma gamma_function_never_finite_witness :
  gamma_function (L := reference_libm) 0.5 = Raise ZeroDivisionError /\
  gamma_function (L := reference_libm) 1 = Ret infinity /\
  gamma_function (L := reference_libm) 2.5 = Ret nan.
Proof.
  split; [|split].
  - apply (gamma_function_never_finite (L := reference_libm) 0.5); reflexivity.
  - apply (gamma_function_never_finite (L := reference_libm) 1); reflexivity.
  - apply (gamma_function_never_finite (L := reference_libm) 2.5); reflexivity.
Defined.

(** C10 at 7 degrees of freedom, as a float and as an [int], and
    [z_value = 2]. *)
Lemma calculate_probability_ge_four_witness :
  is_finite 2 = true /\
  calculate_Km (L := reference_libm) (7 / 2) = Ret nan /\
  calculate_probability (L := reference_libm) 7 2 = Ret nan /\
  PyFloat.int_div_two 7 = Ret 3.5 /\
  calculate_probability_int (L := reference_libm) 7 2 = Ret nan.
Proof.
  assert (Hm : PyFloat.int_div_two 7 = Ret 3.5) by reflexivity.
  destruct (calculate_probability_ge_four (L := reference_libm) 2 eq_refl)
    as (Hf & Hi & _).
  destruct (Hf 7 eq_refl) as (_ & HK & _ & _ & HP).
  destruct (Hi 7%Z 3.5 ltac:(lia) Hm) as (_ & _ & HI).
  split; [reflexivity|]. split; [exact HK|]. split; [exact HP|].
  split; [exact Hm|exact HI].
Defined.

(** C10 as first stated fails.  At 4 degrees of freedom and
    [z_value = 2^600] the integrand's [z_value ** 2] overflows, so the CDF
    integral raises [OverflowError] instead of evaluating to [nan]; the
    handler then returns [nan].  At the [int] [10 ** 400],
    [degrees_of_freedom / 2] raises [OverflowError] and
    [calculate_probability] returns nothing. *)
Lemma calculate_probability_integral_overflows :
  (4 <=? 4) = true /\ is_finite 0x1p+600 = true /\
  calculate_probability_integrate (L := reference_libm)
    (4 / 2) neg_infinity 0x1p+600 1000 = Raise OverflowError /\
  calculate_probability (L := reference_libm) 4 0x1p+600 = Ret nan /\
  (4 <=? 10 ^ 400)%Z = true /\ is_finite 0 = true /\
  PyFloat.int_div_two (10 ^ 400) = Raise OverflowError /\
  calculate_probability_int (L := reference_libm) (10 ^ 400) 0 =
    Raise OverflowError.
Proof.
  split; [|split; [|split; [|split; [|split; [|split; [|split]]]]]];
    vm_compute; reflexivity.
Qed.

(** * The rest of the code: the sample count, the symmetry, the driver *)

(** ** The sample count of [integrate] *)

Lemma of_int_nonzero N n :
  N <> 0%Z -> PyFloat.of_int N = Ret n -> (n =? 0) = false.
Proof.
  intros HN H. destruct N as [|p|p]; [contradiction| |].
  - apply (positive_float_tests n). apply (of_int_pos (Zpos p)); [lia|exact H].
  - unfold PyFloat.of_int in H. cbn [binary_normalize] in H.
    destruct (binary_round_spec true p 0) as (m' & e' & He' & Hc & Hr).
    { pose proof (Pos2Z.is_pos (digits2_pos p)). lia. }
    rewrite Hr in H. destruct (e' <=? emax - prec)%Z eqn:Hle.
    + assert (V : valid_binary (S754_finite true m' e') = true).
      { cbn [SpecFloat.valid_binary]. unfold bounded, canonical_mantissa.
        rewrite Hle, andb_true_r. apply Z.eqb_eq, Hc. }
      pose proof (Prim2SF_SF2Prim _ V) as HP.
      assert (Hi : is_infinity (SF2Prim (S754_finite true m' e')) = false).
      { unfold is_infinity. rewrite eqb_spec, abs_spec. rewrite HP. reflexivity. }
      cbv zeta in H. rewrite Hi in H. injection H as Hn. subst n.
      assert (G : SFeqb (S754_finite true m' e') (S754_zero false) = false)
        by reflexivity.
      rewrite <- HP in G. rewrite eqb_spec. exact G.
    + cbn [SF2Prim] in H. cbv zeta in H.
      change (is_infinity neg_infinity) with true in H. discriminate H.
Qed.

Lemma py_range_empty lo hi : (hi <= lo)%Z -> py_range lo hi = [].
Proof.
  intros H. unfold py_range. replace (Z.to_nat (hi - lo)) with O by lia.
  reflexivity.
Qed.

Lemma integrate_with_no_interior f a b N n fa fb :
  (N <= 1)%Z -> N <> 0%Z ->
  PyFloat.of_int N = Ret n ->
  f a = Ret fa ->
  f b = Ret fb ->
  integrate_with f a b N = Ret ((b - a) / n * (0.5 * (fa + fb))).
Proof.
  intros HN H0 Hn Hfa Hfb. unfold integrate_with.
  rewrite Hn. cbn [bind]. rewrite (truediv_nonzero _ _ (of_int_nonzero N n H0 Hn)).
  cbn [bind]. rewrite Hfa, Hfb. cbn [bind].
  rewrite (py_range_empty 1 N HN). reflexivity.
Qed.

(** ** The square in the integrand *)

Lemma opp_tests u :
  is_nan (- u) = is_nan u /\ is_infinity (- u) = is_infinity u /\
  (- u =? 0) = (u =? 0).
Proof.
  unfold is_nan, is_infinity. rewrite !eqb_spec, !abs_spec, !opp_spec.
  destruct (Prim2SF u) as [[|]|[|]| |[|] m e]; cbn [SFopp SFabs negb];
    rewrite ?SFeqb_finite_refl; repeat split; reflexivity.
Qed.

Lemma opp_nan u : is_nan u = true -> - u = u.
Proof.
  unfold is_nan. rewrite eqb_spec. intros H. apply float_of_SF.
  rewrite opp_spec.
  destruct (Prim2SF u) as [[|]|[|]| |[|] m e]; rewrite ?SFeqb_finite_refl in H;
    try discriminate H; reflexivity.
Qed.

Lemma abs_opp u : abs (- u) = abs u.
Proof.
  apply float_of_SF. rewrite !abs_spec, opp_spec.
  destruct (Prim2SF u) as [[|]|[|]| |[|] m e]; reflexivity.
Qed.

Lemma opp_opp u : - - u = u.
Proof.
  apply float_of_SF. rewrite !opp_spec.
  destruct (Prim2SF u) as [[|]|[|]| |[|] m e]; reflexivity.
Qed.

(** The absolute value that [float_pow] takes of its base. *)
Lemma abs_select_opp u :
  is_nan u = false -> (u =? 0) = false ->
  (if - u <? 0 then - - u else - u) = (if u <? 0 then - u else u).
Proof.
  unfold is_nan. rewrite !eqb_spec. intros Hn H0.
  assert (H : (- u <? 0) = negb (u <? 0)).
  { rewrite !ltb_spec, opp_spec.
    destruct (Prim2SF u) as [[|]|[|]| |[|] m e]; try discriminate; reflexivity. }
  rewrite H. destruct (u <? 0); cbn [negb]; [reflexivity|apply opp_opp].
Qed.

Section Even.

Context {L : PyFloat.Libm}.

Lemma pow_opp_two u : PyFloat.pow (- u) 2 = PyFloat.pow u 2.
Proof.
  destruct (opp_tests u) as (Hn & Hi & H0).
  unfold PyFloat.pow. rewrite Hn, Hi, H0, is_integer_two, is_odd_integer_two.
  change (2 =? 0) with false. change (is_nan 2) with false.
  change (is_infinity 2) with false. change (0 <? 2) with true.
  cbv zeta. cbn [negb andb]. rewrite !andb_false_r.
  destruct (is_nan u) eqn:En; [now rewrite (opp_nan u En)|].
  destruct (is_infinity u); [now rewrite abs_opp|].
  destruct (u =? 0) eqn:E0; [reflexivity|].
  now rewrite (abs_select_opp u En E0).
Qed.

End Even.

(** ** The console *)

Lemma io_bind_lift_ret {A B} (a : A) (k : A -> io B) :
  io_bind (lift (Ret a)) k = k a.
Proof. unfold io_bind, lift. destruct (k a). reflexivity. Qed.

Lemma io_bind_lift_raise {A B} e (k : A -> io B) :
  io_bind (lift (Raise e)) k = ([], Raise e).
Proof. reflexivity. Qed.

Lemma io_bind_print {B} l (k : unit -> io B) :
  io_bind (print l) k = (l :: fst (k tt), snd (k tt)).
Proof. unfold io_bind, print. destruct (k tt). reflexivity. Qed.

Lemma io_bind_ret {A B} out (a : A) (k : A -> io B) :
  io_bind (out, Ret a) k = (out ++ fst (k a), snd (k a)).
Proof. unfold io_bind. destruct (k a). reflexivity. Qed.

Section Console.

Context {L : PyFloat.Libm}.

(** The value of [calculate_probability_io] is [calculate_probability]. *)
Lemma calculate_probability_io_value df z :
  snd (calculate_probability_io df z) = calculate_probability df z.
Proof.
  unfold calculate_probability_io, calculate_probability,
    calculate_probability_from.
  rewrite truediv_two, io_bind_lift_ret. cbn [bind].
  destruct (calculate_Km (df / 2)) as [Km|e|];
    [rewrite io_bind_lift_ret|reflexivity|reflexivity].
  cbn [bind]. destruct (Km =? infinity); [reflexivity|].
  destruct (calculate_probability_integrate (df / 2) neg_infinity z 1000);
    reflexivity.
Qed.

Lemma calculate_probability_io_nan df z :
  (4 <=? df) = true ->
  calculate_probability_io df z = (handler_lines (df / 2) z, Ret nan).
Proof.
  intros Hdf.
  assert (Hm : sf_ge_exp (-51) (Prim2SF (df / 2)))
    by (apply div_two_ge; [lia|apply leb_four, Hdf]).
  destruct (ge_exp_tests _ _ Hm) as (H0 & _ & _ & Hl).
  unfold calculate_probability_io, handler_lines.
  rewrite truediv_two, io_bind_lift_ret, (calculate_Km_nan _ Hm), io_bind_lift_ret.
  change (nan =? infinity) with false. cbv iota.
  pose proof (integrate_raises_only (df / 2) neg_infinity z 1000 1000 Hl H0
                of_int_1000 eq_refl) as H.
  destruct (calculate_probability_integrate (df / 2) neg_infinity z 1000)
    as [v|e|]; [|reflexivity|contradiction].
  rewrite io_bind_lift_ret. cbv zeta. rewrite mul_nan_l. reflexivity.
Qed.

(** The inner loop of [main] for one [df >= 4]. *)
Lemma main_inner_loop df zs :
  (4 <=? df) = true ->
  io_for zs tt (fun z _ =>
      probability <-- calculate_probability_io df z ;;
      if is_nan probability then print (ErrorFor z)
      else print (ProbabilityFor z probability))
  = (flat_map (fun z => handler_lines (df / 2) z ++ [ErrorFor z]) zs, Ret tt).
Proof.
  intros Hdf. induction zs as [|z zs IH].
  - reflexivity.
  - cbn [io_for flat_map]. rewrite (calculate_probability_io_nan df z Hdf).
    rewrite io_bind_ret. cbv beta. change (is_nan nan) with true. cbv iota.
    change (print (ErrorFor z)) with ([ErrorFor z], Ret tt).
    cbn [fst snd]. rewrite io_bind_ret. cbv beta.
    rewrite IH. cbn [fst snd]. reflexivity.
Qed.

Lemma main_read_three input z1 z2 z3 :
  input 0%Z = Ret z1 -> input 1%Z = Ret z2 -> input 2%Z = Ret z3 ->
  io_for (py_range 0 3) [] (fun i (z_values : list float) =>
      print (Prompt (i + 1)) >>
      z_value <-- lift (input i) ;;
      io_ret (z_values ++ [z_value]))
  = ([Prompt 1; Prompt 2; Prompt 3], Ret [z1; z2; z3]).
Proof.
  intros H1 H2 H3. change (py_range 0 3) with [0; 1; 2]%Z.
  cbn [io_for]. rewrite H1, H2, H3. reflexivity.
Qed.

(** The outer loop of [main], over degrees of freedom that are all at least
    4. *)
Lemma main_outer_loop dfs zs :
  forallb (fun df => 4 <=? df) dfs = true ->
  io_for dfs tt (fun df _ =>
      print (DegreesOfFreedom df) >>
      io_for zs tt (fun z _ =>
          probability <-- calculate_probability_io df z ;;
          if is_nan probability then print (ErrorFor z)
          else print (ProbabilityFor z probability)))
  = (flat_map (fun df =>
         DegreesOfFreedom df ::
         flat_map (fun z => handler_lines (df / 2) z ++ [ErrorFor z]) zs)
       dfs,
     Ret tt).
Proof.
  induction dfs as [|df dfs IH]; intros H.
  - reflexivity.
  - cbn [forallb] in H. apply andb_true_iff in H. destruct H as [Hdf H].
    cbn [io_for flat_map]. rewrite io_bind_print. cbv beta.
    rewrite (main_inner_loop df zs Hdf). cbn [fst snd].
    rewrite io_bind_ret. cbv beta. rewrite (IH H). reflexivity.
Qed.

Lemma main_output input z1 z2 z3 :
  input 0%Z = Ret z1 -> input 1%Z = Ret z2 -> input 2%Z = Ret z3 ->
  main input =
    ([Prompt 1; Prompt 2; Prompt 3] ++
     flat_map (fun df =>
         DegreesOfFreedom df ::
         flat_map (fun z => handler_lines (df / 2) z ++ [ErrorFor z])
           [z1; z2; z3])
       [7; 11; 15],
     Ret tt).
Proof.
  intros H1 H2 H3. unfold main.
  rewrite (main_read_three input z1 z2 z3 H1 H2 H3), io_bind_ret.
  cbv beta zeta. rewrite main_outer_loop by reflexivity. reflexivity.
Qed.

End Console.

Lemma raises_only_overflow_cases {A} (r : result A) :
  raises_only (eq OverflowError) r ->
  (exists v, r = Ret v) \/ r = Raise OverflowError.
Proof.
  destruct r as [v|e|]; cbn [raises_only]; intros H.
  - left. now exists v.
  - right. now subst e.
  - contradiction.
Qed.

Lemma gt_zero_tests m : (0 <? m) = true -> (m <? 0) = false /\ (m =? 0) = false.
Proof.
  intros H. destruct (positive_float_tests m (ltb_zero_positive m H))
    as (H0 & _ & _ & Hl). auto.
Qed.

(** * Further properties of the code *)

Section Further.

Context {L : PyFloat.Libm}.

(** X1.  [gamma_function] on every float, the non-finite ones included: it
    raises [ZeroDivisionError] or returns [+inf] or [nan], never a finite
    number; at [+inf] and [nan] it returns [nan], at [-inf] it returns
    [+inf]. *)
Theorem gamma_function_every_alpha :
  (forall alpha,
      gamma_function alpha = Raise ZeroDivisionError \/
      gamma_function alpha = Ret infinity \/
      gamma_function alpha = Ret nan) /\
  gamma_function infinity = Ret nan /\
  gamma_function neg_infinity = Ret infinity /\
  gamma_function nan = Ret nan.
Proof.
  split; [exact gamma_function_cases|].
  split; [exact gamma_function_infinity|].
  split; [exact gamma_function_neg_infinity|exact gamma_function_of_nan].
Qed.

(** X2.  [calculate_Km] on every float [m]: it returns [nan], or raises
    [ZeroDivisionError] (from [gamma_function]) or [ValueError] (from
    [math.sqrt]).  It never returns a number, and never the [+inf] of its
    [denominator == 0] branch: the denominator is a multiple of [+inf] or
    [nan], which is not zero. *)
Theorem calculate_Km_every_m m :
  calculate_Km m = Ret nan \/
  calculate_Km m = Raise ZeroDivisionError \/
  calculate_Km m = Raise ValueError.
Proof. exact (calculate_Km_cases m). Qed.

(** X3.  When [calculate_Km(m)] returns, [m] is neither negative nor zero
    (it is positive or [nan]) and the value is [nan]: for [m < 0] the
    square root raises [ValueError] unless a [gamma_function] call has
    raised before it, and for [m = 0] [gamma_function(0.5)] raises. *)
Theorem calculate_Km_returns_for_positive m Km :
  calculate_Km m = Ret Km ->
  Km = nan /\ (m <? 0) = false /\ (m =? 0) = false.
Proof. exact (calculate_Km_returns m Km). Qed.

(** X4.  For [m > 0] and every float [u], [integrand(u, m)] returns a float
    or raises [OverflowError]: the base [1 + u ** 2 / m] is at least [1] or
    [nan], so the power is never complex and never a division by zero. *)
Theorem integrand_raises_only_overflow u m :
  (0 <? m) = true ->
  (exists v, integrand u m = Ret v) \/ integrand u m = Raise OverflowError.
Proof.
  intros H. destruct (gt_zero_tests m H) as [Hl H0].
  apply raises_only_overflow_cases, integrand_raises_only; assumption.
Qed.

(** X5.  For [m > 0] and a sample count [N >= 1], the nested [integrate] of
    [calculate_probability] returns a float or raises [OverflowError],
    whatever the bounds are (infinite and [nan] included). *)
Theorem calculate_probability_integrate_raises_only_overflow m a b N :
  (0 <? m) = true -> (1 <= N)%Z ->
  (exists v, calculate_probability_integrate m a b N = Ret v) \/
  calculate_probability_integrate m a b N = Raise OverflowError.
Proof.
  intros H HN. destruct (gt_zero_tests m H) as [Hl H0].
  apply raises_only_overflow_cases.
  pose proof (of_int_raises_only N) as Hc.
  destruct (PyFloat.of_int N) as [n|e|] eqn:Hn.
  - apply (integrate_raises_only m a b N n Hl H0 Hn).
    apply (of_int_nonzero N n); [lia|exact Hn].
  - unfold calculate_probability_integrate. rewrite Hn. exact Hc.
  - contradiction.
Qed.

(** X6.  [calculate_probability] on every pair of floats: it returns [nan]
    or raises [ZeroDivisionError] or [ValueError].  It never returns a
    probability, and the only exceptions that leave it are those of
    [calculate_Km], which is called before the [try]. *)
Theorem calculate_probability_every_input df z :
  calculate_probability df z = Ret nan \/
  calculate_probability df z = Raise ZeroDivisionError \/
  calculate_probability df z = Raise ValueError.
Proof. exact (calculate_probability_cases df z). Qed.

(** X7.  At every [z_value], also at [+inf], [-inf] and [nan]:
    [calculate_probability] returns [nan] for every float
    [degrees_of_freedom >= 4] and for every [int] [degrees_of_freedom >= 4]
    whose half is in the range of the floats, and no exception leaves it;
    for an [int] so large that [degrees_of_freedom / 2] overflows, the
    [OverflowError] of that division leaves it. *)
Theorem calculate_probability_nan_at_every_z z :
  (forall df, (4 <=? df) = true -> calculate_probability df z = Ret nan) /\
  (forall n m, (4 <= n)%Z -> PyFloat.int_div_two n = Ret m ->
     calculate_probability_int n z = Ret nan) /\
  (forall n, PyFloat.int_div_two n = Raise OverflowError ->
     calculate_probability_int n z = Raise OverflowError).
Proof.
  split; [|split].
  - intros df. apply calculate_probability_nan_any_z.
  - intros n m. apply calculate_probability_int_nan_any_z.
  - intros n. apply calculate_probability_int_overflow.
Qed.

(** X8.  With [N = 0] both nested [integrate] functions raise
    [ZeroDivisionError] at [h = (b - a) / N], before the integrand is
    called. *)
Theorem integrate_zero_intervals alpha m a b :
  gamma_function_integrate alpha a b 0 = Raise ZeroDivisionError /\
  calculate_probability_integrate m a b 0 = Raise ZeroDivisionError.
Proof. split; reflexivity. Qed.

(** X9.  [N] is not checked: for [N = 1] and for a negative [N] the loop
    over [range(1, N)] is empty, and both nested [integrate] functions
    return [h * (0.5 * (fa + fb))] with [h = (b - a) / N], which for a
    negative [N] has the sign of the step reversed. *)
Theorem integrate_no_interior_samples a b N n fa fb :
  (N <= 1)%Z -> N <> 0%Z ->
  PyFloat.of_int N = Ret n ->
  (forall alpha,
      gamma_function_integrand alpha a = Ret fa ->
      gamma_function_integrand alpha b = Ret fb ->
      gamma_function_integrate alpha a b N =
        Ret ((b - a) / n * (0.5 * (fa + fb)))) /\
  (forall m,
      integrand a m = Ret fa ->
      integrand b m = Ret fb ->
      calculate_probability_integrate m a b N =
        Ret ((b - a) / n * (0.5 * (fa + fb)))).
Proof.
  intros HN H0 Hn. split.
  - intros alpha Hfa Hfb.
    exact (integrate_with_no_interior (gamma_function_integrand alpha)
             a b N n fa fb HN H0 Hn Hfa Hfb).
  - intros m Hfa Hfb.
    exact (integrate_with_no_interior (fun u => integrand u m)
             a b N n fa fb HN H0 Hn Hfa Hfb).
Qed.

(** X10.  [integrand(u, m)] is even in [u]: [integrand(-u, m)] has the
    outcome of [integrand(u, m)], for all floats [u] and [m]. *)
Theorem integrand_even u m : integrand (- u) m = integrand u m.
Proof. unfold integrand. now rewrite pow_opp_two. Qed.

(** X11.  [main], when the three inputs are read as the floats [z1], [z2],
    [z3]: it does not raise, and after the three prompts it prints, for each
    of 7, 11 and 15 degrees of freedom, the heading and for each [z] the
    line [Error occurred for z=...] (preceded by the handler's line when
    the CDF integral raised).  No probability is ever printed. *)
Theorem main_reports_errors input z1 z2 z3 :
  input 0%Z = Ret z1 -> input 1%Z = Ret z2 -> input 2%Z = Ret z3 ->
  main input =
    ([Prompt 1; Prompt 2; Prompt 3] ++
     flat_map (fun df =>
         DegreesOfFreedom df ::
         flat_map (fun z => handler_lines (df / 2) z ++ [ErrorFor z])
           [z1; z2; z3])
       [7; 11; 15],
     Ret tt).
Proof. exact (main_output input z1 z2 z3). Qed.

(** X12.  [main], when the text of the input number [k] (counted from 0) is
    not a float and the earlier ones are: the exception of [float(...)]
    leaves [main] after [k + 1] prompts; no degrees of freedom and no result
    are printed. *)
Theorem main_bad_input input k e :
  (0 <= k < 3)%Z ->
  (forall i, (0 <= i < k)%Z -> exists z, input i = Ret z) ->
  input k = Raise e ->
  main input = (map Prompt (py_range 1 (k + 2)), Raise e).
Proof.
  intros Hk Hi He. unfold main. change (py_range 0 3) with [0; 1; 2]%Z.
  assert (Hc : k = 0%Z \/ k = 1%Z \/ k = 2%Z) by lia.
  destruct Hc as [-> | [-> | ->]].
  - cbn [io_for]. rewrite He. reflexivity.
  - destruct (Hi 0%Z ltac:(lia)) as (z0 & H0).
    cbn [io_for]. rewrite H0, He. reflexivity.
  - destruct (Hi 0%Z ltac:(lia)) as (z0 & H0).
    destruct (Hi 1%Z ltac:(lia)) as (z1 & H1).
    cbn [io_for]. rewrite H0, H1, He. reflexivity.
Qed.

End Further.

(** ** The further properties at concrete inputs, on [reference_libm] *)

(** X3 at [m = 2]. *)
Lemma calculate_Km_returns_for_positive_witness :
  calculate_Km (L := reference_libm) 2 = Ret nan /\
  (2 <? 0) = false /\ (2 =? 0) = false.
Proof.
  assert (H : calculate_Km (L := reference_libm) 2 = Ret nan)
    by (vm_compute; reflexivity).
  split; [exact H|].
  exact (proj2 (calculate_Km_returns_for_positive (L := reference_libm) 2 nan H)).
Defined.

(** X4 at [u = 2^600], where [u ** 2] overflows, and [m = 2]. *)
Lemma integrand_raises_only_overflow_witness :
  (0 <? 2) = true /\
  ((exists v, integrand (L := reference_libm) 0x1p+600 2 = Ret v) \/
   integrand (L := reference_libm) 0x1p+600 2 = Raise OverflowError).
Proof.
  split; [reflexivity|].
  exact (integrand_raises_only_overflow (L := reference_libm) 0x1p+600 2 eq_refl).
Defined.

(** X5 over [[-inf, 3]] with 4 intervals, at [m = 3.5]. *)
Lemma calculate_probability_integrate_raises_only_overflow_witness :
  (0 <? 3.5) = true /\ (1 <= 4)%Z /\
  ((exists v, calculate_probability_integrate (L := reference_libm)
                3.5 neg_infinity 3 4 = Ret v) \/
   calculate_probability_integrate (L := reference_libm) 3.5 neg_infinity 3 4 =
     Raise OverflowError).
Proof.
  split; [reflexivity|]. split; [lia|].
  exact (calculate_probability_integrate_raises_only_overflow
           (L := reference_libm) 3.5 neg_infinity 3 4 eq_refl ltac:(lia)).
Defined.

(** X7 at 7 degrees of freedom, as a float and as an [int], and
    [z_value = +inf]; and at the [int] [10 ** 400]. *)
Lemma calculate_probability_nan_at_every_z_witness :
  (4 <=? 7) = true /\
  calculate_probability (L := reference_libm) 7 infinity = Ret nan /\
  PyFloat.int_div_two 7 = Ret 3.5 /\
  calculate_probability_int (L := reference_libm) 7 infinity = Ret nan /\
  PyFloat.int_div_two (10 ^ 400) = Raise OverflowError /\
  calculate_probability_int (L := reference_libm) (10 ^ 400) infinity =
    Raise OverflowError.
Proof.
  assert (Hm : PyFloat.int_div_two 7 = Ret 3.5) by reflexivity.
  assert (Ho : PyFloat.int_div_two (10 ^ 400) = Raise OverflowError)
    by (vm_compute; reflexivity).
  destruct (calculate_probability_nan_at_every_z (L := reference_libm) infinity)
    as (Hf & Hi & Hr).
  split; [reflexivity|]. split; [exact (Hf 7 eq_refl)|].
  split; [exact Hm|]. split; [exact (Hi 7%Z 3.5 ltac:(lia) Hm)|].
  split; [exact Ho|exact (Hr (10 ^ 400)%Z Ho)].
Defined.

(** X9 for [gamma_function(2)]'s integrand over [[0, 1]] with [N = -2]. *)
Lemma integrate_no_interior_samples_witness :
  let f := gamma_function_integrand (L := reference_libm) 2 in
  PyFloat.of_int (-2) = Ret (-2) /\
  gamma_function_integrate (L := reference_libm) 2 0 1 (-2) =
    Ret ((1 - 0) / -2 * (0.5 * (returned (f 0) + returned (f 1)))).
Proof.
  intros f.
  assert (Hn : PyFloat.of_int (-2) = Ret (-2)) by reflexivity.
  assert (Hfa : f 0 = Ret (returned (f 0))) by (vm_compute; reflexivity).
  assert (Hfb : f 1 = Ret (returned (f 1))) by (vm_compute; reflexivity).
  split; [exact Hn|].
  exact (proj1 (integrate_no_interior_samples (L := reference_libm) 0 1 (-2) (-2)
                  (returned (f 0)) (returned (f 1))
                  ltac:(lia) ltac:(lia) Hn)
           2 Hfa Hfb).
Defined.

(** X11 with the three inputs [2], [2^600] and [-inf]. *)
Lemma main_reports_errors_witness :
  let input := fun i : Z =>
    if (i =? 0)%Z then Ret 2
    else if (i =? 1)%Z then Ret 0x1p+600 else Ret neg_infinity in
  main (L := reference_libm) input =
    ([Prompt 1; Prompt 2; Prompt 3] ++
     flat_map (fun df =>
         DegreesOfFreedom df ::
         flat_map (fun z =>
             handler_lines (L := reference_libm) (df / 2) z ++ [ErrorFor z])
           [2; 0x1p+600; neg_infinity])
       [7; 11; 15],
     Ret tt).
Proof.
  intros input.
  exact (main_reports_errors (L := reference_libm) input 2 0x1p+600 neg_infinity
           eq_refl eq_refl eq_refl).
Defined.

(** X12 when the second input is not a number. *)
Lemma main_bad_input_witness :
  let input := fun i : Z => if (i =? 1)%Z then Raise ValueError else Ret 2 in
  main (L := reference_libm) input = ([Prompt 1; Prompt 2], Raise ValueError).
Proof.
  intros input.
  apply (main_bad_input (L := reference_libm) input 1 ValueError).
  - lia.
  - intros i Hi. exists 2. assert (i = 0%Z) as -> by lia. reflexivity.
  - reflexivity.
Defined.
